(** * Summit dashboard: a shallow embedding of the client helpers

    The development follows the TypeScript sources of the dashboard:
    the analytics panel (letter grades, language distribution, issue
    severities), the repository sidebar (the two versions of
    [fetchRepositories]) and the chat interface ([handleSendMessage] and
    the effect that runs when the selected repository changes).  The
    conversation store and the health endpoint live in the Python
    backend; they are modelled from the specification and marked so. *)

From Stdlib Require Import ZArith NArith QArith List String Ascii DecimalString DecimalN Lia Lqa.
From stdpp Require Import gmap list fin_maps infinite.
Import ListNotations.
Set Warnings "-register-all".


(** ** JavaScript strings

    A JavaScript string is a sequence of UTF-16 code units.  Literals of
    the sources are ASCII and are written [js "..."]. *)

Abbreviation jsstring := (list N).

Definition js (s : string) : jsstring :=
  map N_of_ascii (list_ascii_of_string s).

(** [s.split(sep)] for a separator of one code unit: never empty. *)
Fixpoint split (sep : N) (s : jsstring) : list jsstring :=
  match s with
  | [] => [[]]
  | c :: rest =>
      if N.eqb c sep then [] :: split sep rest
      else match split sep rest with
           | seg :: segs => (c :: seg) :: segs
           | [] => [[c]]
           end
  end.

(** ECMAScript [WhiteSpace] and [LineTerminator] code points, the ones
    [String.prototype.trim] strips.  All of them are single code units. *)
Definition isWhiteSpace (c : N) : bool :=
  (N.eqb c 9 || N.eqb c 10 || N.eqb c 11 || N.eqb c 12 || N.eqb c 13
   || N.eqb c 32 || N.eqb c 160 || N.eqb c 5760
   || (N.leb 8192 c && N.leb c 8202)
   || N.eqb c 8232 || N.eqb c 8233 || N.eqb c 8239 || N.eqb c 8287
   || N.eqb c 12288 || N.eqb c 65279)%bool.

Fixpoint trimStart (s : jsstring) : jsstring :=
  match s with
  | c :: rest => if isWhiteSpace c then trimStart rest else s
  | [] => []
  end.

Definition trim (s : jsstring) : jsstring :=
  rev (trimStart (rev (trimStart s))).

(** Truthiness of a [string | null]: [null] and the empty string are falsy. *)
Definition truthy (s : option jsstring) : bool :=
  match s with
  | Some (_ :: _) => true
  | _ => false
  end.

(** [n.toString()] for a non-negative integer. *)
Definition toString (n : N) : jsstring :=
  js (NilEmpty.string_of_uint (N.to_uint n)).

(** ** Numbers

    The scores reach the panel through [response.json()]: they are JSON
    numbers, that is doubles without NaN.  The helpers only compare them
    with constants that are exact in binary (halves and integers), and a
    comparison of doubles is the comparison of their values, so a score
    is modelled by its rational value. *)

(** [x >= y] and [x < y] on numbers. *)
Definition num_ge (x y : Q) : bool := Qle_bool y x.
Definition num_lt (x y : Q) : bool := negb (Qle_bool y x).

#[global] Instance Qlt_decision (x y : Q) : Decision (x < y)%Q.
Proof.
  destruct (Qlt_le_dec x y) as [H|H]; [left; exact H | right].
  intros H'. exact (Qlt_not_le _ _ H' H).
Defined.

#[global] Instance Qle_decision (x y : Q) : Decision (x <= y)%Q.
Proof.
  destruct (Qlt_le_dec y x) as [H|H]; [right | left; exact H].
  intros H'. exact (Qlt_not_le _ _ H H').
Defined.

(** ** Analytics panel *)

Module ChunkAnalysis.
Record t := {
  content_type : jsstring;
  context : jsstring;
  quality_score : Q;
  insights : jsstring;
  suggestions : jsstring;
}.
End ChunkAnalysis.

Module FileAnalysis.
Record t := {
  lint_score : Q;
  chunks : gmap jsstring ChunkAnalysis.t;
  recent_changes : jsstring;
  insights : jsstring;
  suggestions : jsstring;
  repo_context : jsstring;
}.
End FileAnalysis.

Definition getLetterGrade (score : Q) : jsstring :=
  if num_ge score 9.5 then js "A+"
  else if num_ge score 9.0 then js "A"
  else if num_ge score 8.5 then js "A-"
  else if num_ge score 8.0 then js "B+"
  else if num_ge score 7.5 then js "B"
  else if num_ge score 7.0 then js "B-"
  else if num_ge score 6.5 then js "C+"
  else if num_ge score 6.0 then js "C"
  else if num_ge score 5.5 then js "C-"
  else if num_ge score 5.0 then js "D+"
  else if num_ge score 4.0 then js "D"
  else js "F".

(** The grades from worst to best; a grade's rank is its position. *)
Definition gradeScale : list jsstring :=
  [js "F"; js "D"; js "D+"; js "C-"; js "C"; js "C+";
   js "B-"; js "B"; js "B+"; js "A-"; js "A"; js "A+"].

Fixpoint indexOf (g : jsstring) (l : list jsstring) : nat :=
  match l with
  | [] => 0
  | h :: t => if decide (h = g) then 0 else S (indexOf g t)
  end.

Definition gradeRank (g : jsstring) : nat := indexOf g gradeScale.

(** An entry of the two charts: [{ name, color, count, percentage }]. *)
Record Bucket := {
  name : jsstring;
  color : jsstring;
  count : nat;
  percentage : nat;
}.

(** The language entries before the percentages are attached. *)
Record Counter := {
  c_name : jsstring;
  c_color : jsstring;
  c_count : nat;
}.

Definition incr (c : Counter) : Counter :=
  {| c_name := c_name c; c_color := c_color c; c_count := S (c_count c) |}.

Definition incrCount (b : Bucket) : Bucket :=
  {| name := name b; color := color b; count := S (count b);
     percentage := percentage b |}.

Definition withPercentage (p : nat) (c : Counter) : Bucket :=
  {| name := c_name c; color := c_color c; count := c_count c;
     percentage := p |}.

Definition setPercentage (p : nat) (b : Bucket) : Bucket :=
  {| name := name b; color := color b; count := count b; percentage := p |}.

Definition languages0 : list Counter :=
  [ {| c_name := js "Python"; c_color := js "#3572A5"; c_count := 0 |};
    {| c_name := js "JavaScript"; c_color := js "#f1e05a"; c_count := 0 |};
    {| c_name := js "TypeScript"; c_color := js "#2b7489"; c_count := 0 |};
    {| c_name := js "Other"; c_color := js "#8e8e8e"; c_count := 0 |} ].

Definition issues0 : list Bucket :=
  [ {| name := js "Critical"; color := js "#ef4444"; count := 0; percentage := 0 |};
    {| name := js "Major"; color := js "#f97316"; count := 0; percentage := 0 |};
    {| name := js "Minor"; color := js "#eab308"; count := 0; percentage := 0 |} ].

(** [Object.keys] and [Object.values] of a record read from JSON.  The
    loops below only count, so the enumeration order plays no role. *)
Definition keys {V} (o : gmap jsstring V) : list jsstring := (map_to_list o).*1.
Definition values {V} (o : gmap jsstring V) : list V := (map_to_list o).*2.

(** The [languages] array with the four counts filled in. *)
Definition languagesWith (py js_ ts other : nat) : list Counter :=
  [ {| c_name := js "Python"; c_color := js "#3572A5"; c_count := py |};
    {| c_name := js "JavaScript"; c_color := js "#f1e05a"; c_count := js_ |};
    {| c_name := js "TypeScript"; c_color := js "#2b7489"; c_count := ts |};
    {| c_name := js "Other"; c_color := js "#8e8e8e"; c_count := other |} ].

Definition issuesWith (critical major minor : nat) : list Bucket :=
  [ {| name := js "Critical"; color := js "#ef4444"; count := critical; percentage := 0 |};
    {| name := js "Major"; color := js "#f97316"; count := major; percentage := 0 |};
    {| name := js "Minor"; color := js "#eab308"; count := minor; percentage := 0 |} ].

(** Every chunk of every analysed file. *)
Definition chunksOf (fileAnalyses : gmap jsstring FileAnalysis.t)
    : list ChunkAnalysis.t :=
  concat (map (fun analysis => values (FileAnalysis.chunks analysis))
              (values fileAnalyses)).

(** The extension of a path as a reader has it, written on the path
    itself and without [split]: the text after the last "." of the
    path, and the whole path when it has no ".". *)
Fixpoint afterLastDot (filePath : jsstring) : jsstring :=
  match filePath with
  | [] => []
  | c :: rest =>
      if bool_decide (46%N ∈ rest) then afterLastDot rest
      else if N.eqb c 46 then rest
      else c :: rest
  end.

Section Analytics.
(** Two functions of the JavaScript runtime are parameters:
    [String.prototype.toLowerCase] (the Unicode case tables) and the
    double arithmetic of [Math.round((count / total) * 100) || 0]. *)
Variable toLowerCase : jsstring -> jsstring.
Variable roundedPercent : nat -> nat -> nat.

(** [filePath.split(".").pop()?.toLowerCase()] *)
Definition extension (filePath : jsstring) : option jsstring :=
  toLowerCase <$> last (split 46 filePath).

(** The index of the entry of [languages] that the loop body bumps. *)
Definition languageIndex (filePath : jsstring) : nat :=
  let ext := extension filePath in
  if decide (ext = Some (js "py")) then 0
  else if decide (ext = Some (js "js")) then 1
  else if decide (ext = Some (js "ts") \/ ext = Some (js "tsx")) then 2
  else 3.

(** The four classes of paths, in the order of [languages]. *)
Definition isPython (filePath : jsstring) : Prop :=
  extension filePath = Some (js "py").
Definition isJavaScript (filePath : jsstring) : Prop :=
  extension filePath = Some (js "js").
Definition isTypeScript (filePath : jsstring) : Prop :=
  extension filePath = Some (js "ts") \/ extension filePath = Some (js "tsx").
Definition isOther (filePath : jsstring) : Prop :=
  ~ isPython filePath /\ ~ isJavaScript filePath /\ ~ isTypeScript filePath.

#[global] Instance isPython_dec p : Decision (isPython p).
Proof. unfold isPython. apply _. Defined.
#[global] Instance isJavaScript_dec p : Decision (isJavaScript p).
Proof. unfold isJavaScript. apply _. Defined.
#[global] Instance isTypeScript_dec p : Decision (isTypeScript p).
Proof. unfold isTypeScript. apply _. Defined.
#[global] Instance isOther_dec p : Decision (isOther p).
Proof. unfold isOther. apply _. Defined.

(** The four buckets in the words of the contract: a file is a Python
    file when its extension, in lower case, is "py", and so on; these
    do not mention [extension]. *)
Definition pythonFile (filePath : jsstring) : Prop :=
  toLowerCase (afterLastDot filePath) = js "py".
Definition javaScriptFile (filePath : jsstring) : Prop :=
  toLowerCase (afterLastDot filePath) = js "js".
Definition typeScriptFile (filePath : jsstring) : Prop :=
  toLowerCase (afterLastDot filePath) = js "ts"
  \/ toLowerCase (afterLastDot filePath) = js "tsx".
Definition otherFile (filePath : jsstring) : Prop :=
  ~ pythonFile filePath /\ ~ javaScriptFile filePath /\ ~ typeScriptFile filePath.

#[global] Instance pythonFile_dec p : Decision (pythonFile p).
Proof. unfold pythonFile. apply _. Defined.
#[global] Instance javaScriptFile_dec p : Decision (javaScriptFile p).
Proof. unfold javaScriptFile. apply _. Defined.
#[global] Instance typeScriptFile_dec p : Decision (typeScriptFile p).
Proof. unfold typeScriptFile. apply _. Defined.
#[global] Instance otherFile_dec p : Decision (otherFile p).
Proof. unfold otherFile. apply _. Defined.

Definition countLanguages (paths : list jsstring) : list Counter :=
  foldl (fun languages filePath => alter incr (languageIndex filePath) languages)
        languages0 paths.

Definition calculateLanguageDistribution
    (fileAnalyses : gmap jsstring FileAnalysis.t) : list Bucket :=
  let languages := countLanguages (keys fileAnalyses) in
  let total := length (keys fileAnalyses) in
  if decide (total = 0) then map (withPercentage 0) languages
  else map (fun lang => withPercentage (roundedPercent (c_count lang) total) lang)
           languages.

(** The body of the inner loop of [calculateIssuesBySeverity]. *)
Definition countChunk (issues : list Bucket) (chunk : ChunkAnalysis.t)
    : list Bucket :=
  let q := ChunkAnalysis.quality_score chunk in
  if num_lt q 5 then alter incrCount 0 issues
  else if num_lt q 7 then alter incrCount 1 issues
  else if num_lt q 9 then alter incrCount 2 issues
  else issues.

(** The severity classes of a chunk. *)
Definition isCritical (chunk : ChunkAnalysis.t) : Prop :=
  (ChunkAnalysis.quality_score chunk < 5)%Q.
Definition isMajor (chunk : ChunkAnalysis.t) : Prop :=
  (5 <= ChunkAnalysis.quality_score chunk < 7)%Q.
Definition isMinor (chunk : ChunkAnalysis.t) : Prop :=
  (7 <= ChunkAnalysis.quality_score chunk < 9)%Q.
Definition isClean (chunk : ChunkAnalysis.t) : Prop :=
  (9 <= ChunkAnalysis.quality_score chunk)%Q.

#[global] Instance isCritical_dec c : Decision (isCritical c).
Proof. unfold isCritical. apply _. Defined.
#[global] Instance isMajor_dec c : Decision (isMajor c).
Proof. unfold isMajor. apply _. Defined.
#[global] Instance isMinor_dec c : Decision (isMinor c).
Proof. unfold isMinor. apply _. Defined.
#[global] Instance isClean_dec c : Decision (isClean c).
Proof. unfold isClean. apply _. Defined.

Definition countIssues (analyses : list FileAnalysis.t) : list Bucket :=
  foldl (fun issues analysis =>
           foldl countChunk issues (values (FileAnalysis.chunks analysis)))
        issues0 analyses.

Definition calculateIssuesBySeverity
    (fileAnalyses : gmap jsstring FileAnalysis.t) : list Bucket :=
  let issues := countIssues (values fileAnalyses) in
  let total := foldl (fun sum issue => sum + count issue) 0 issues in
  if decide (total = 0) then issues
  else map (fun issue => setPercentage (roundedPercent (count issue) total) issue)
           issues.
End Analytics.

(** ** JavaScript values and exceptions

    What [response.json()] hands to the sidebar is untyped.  An object is
    the list of its own properties in insertion order; the first binding
    of a key is the property. *)

Inductive value :=
| VUndefined
| VNull
| VBool (b : bool)
| VNum (q : Q)
| VStr (s : jsstring)
| VArr (items : list value)
| VObj (props : list (jsstring * value)).

(** Thrown values.  The message of a native error is the engine's and is
    not modelled. *)
Inductive thrown :=
| Error (message : jsstring)
| TypeError
| SyntaxError.

Inductive completion (A : Type) :=
| Normal (a : A)
| Throw (e : thrown).
Arguments Normal {A} a.
Arguments Throw {A} e.

#[global] Instance completion_ret : MRet completion := fun A a => Normal a.
#[global] Instance completion_bind : MBind completion := fun A B k c =>
  match c with
  | Normal a => k a
  | Throw e => Throw e
  end.

(** [Array.prototype.map] with a callback that may throw. *)
Fixpoint mapM {A B} (f : A -> completion B) (l : list A) : completion (list B) :=
  match l with
  | [] => Normal []
  | a :: rest =>
      b ← f a; bs ← mapM f rest; Normal (b :: bs)
  end.

Fixpoint lookupProp (k : jsstring) (props : list (jsstring * value)) : value :=
  match props with
  | [] => VUndefined
  | (k', v) :: rest => if decide (k' = k) then v else lookupProp k rest
  end.

(** [v.k] for a key [k] that is no array index, not ["length"] and no
    member of a built-in prototype (the sidebar reads [repositories],
    [full_name], [name], [branches] and [lastActive]). *)
Definition get (v : value) (k : jsstring) : completion value :=
  match v with
  | VUndefined | VNull => Throw TypeError
  | VObj props => Normal (lookupProp k props)
  | _ => Normal VUndefined
  end.

Definition toBoolean (v : value) : bool :=
  match v with
  | VUndefined | VNull => false
  | VBool b => b
  | VNum q => negb (Qeq_bool q 0)
  | VStr s => match s with [] => false | _ => true end
  | VArr _ | VObj _ => true
  end.

(** [a || b] *)
Definition or_else (a b : value) : value := if toBoolean a then a else b.

Definition isArray (v : value) : bool :=
  match v with VArr _ => true | _ => false end.

(** [v.split('/')[0]]: only a string has a callable [split]. *)
Definition splitHead (v : value) : completion value :=
  match v with
  | VStr s => Normal (match split 47 s with
                      | seg :: _ => VStr seg
                      | [] => VUndefined
                      end)
  | _ => Throw TypeError
  end.

(** The own enumerable properties that [{ ...v }] copies. *)
Definition ownProps (v : value) : list (jsstring * value) :=
  match v with
  | VObj props => props
  | VArr items => imap (fun i x => (toString (N.of_nat i), x)) items
  | VStr s => imap (fun i c => (toString (N.of_nat i), VStr [c])) s
  | _ => []
  end.

(** [o.k = v] on the property list: in place when [k] is there, appended
    otherwise. *)
Fixpoint setProp (k : jsstring) (v : value) (props : list (jsstring * value))
    : list (jsstring * value) :=
  match props with
  | [] => [(k, v)]
  | (k', v') :: rest =>
      if decide (k' = k) then (k, v) :: rest else (k', v') :: setProp k v rest
  end.

(** ** HTTP requests, toasts and effects *)

Inductive ChatRole := user | assistant.

(** The body of a request: none for GET, the object given to
    [JSON.stringify] for POST /api/chat. *)
Inductive RequestBody :=
| NoBody
| ChatBody (question repository : jsstring)
           (messages : list (ChatRole * jsstring))
           (conversation_id : option jsstring).

Record Request := {
  url : jsstring;
  method : jsstring;
  headers : list (jsstring * jsstring);
  body : RequestBody;
}.

(** [error.message]: the text of an [Error], the engine's text otherwise. *)
Inductive text :=
| Text (s : jsstring)
| EngineMessage (e : thrown).

Definition messageOf (e : thrown) : text :=
  match e with
  | Error m => Text m
  | _ => EngineMessage e
  end.

Record Toast := {
  title : jsstring;
  description : text;
  variant : jsstring;
}.

Inductive Effect :=
| Fetch (r : Request)
| ShowToast (t : Toast).

(** [process.env.X || "http://localhost:8000"] *)
Definition backendUrl (envVar : option jsstring) : jsstring :=
  match envVar with
  | Some (c :: u) => c :: u
  | _ => js "http://localhost:8000"
  end.

(** ** Repository sidebar *)

(** How [fetch] and the reading of its response end. *)
Inductive FetchResult :=
| Rejected
| NotOk (status : N) (statusText errorText : jsstring)
| JsonRejected
| Json (data : value).

Module RepositorySidebar.
Record State := {
  searchQuery : jsstring;
  selectedRepo : option jsstring;
  repositories : list value;
  filteredRepos : list value;
  isLoading : bool;
  error : option jsstring;
}.

(** The values the component is mounted with. *)
Definition initial : State :=
  {| searchQuery := []; selectedRepo := None; repositories := [];
     filteredRepos := []; isLoading := false; error := None |}.

Definition defaultBranches : value := VArr [VStr (js "main")].
Definition defaultLastActive : value := VStr (js "Recently updated").

(** The callback of the [data.repositories.map] of both versions:
    [{ ...repo, branches: repo.branches || ["main"],
       lastActive: repo.lastActive || "Recently updated" }]. *)
Definition formatSpread (repo : value) : completion value :=
  branches ← get repo (js "branches");
  lastActive ← get repo (js "lastActive");
  Normal (VObj (setProp (js "lastActive") (or_else lastActive defaultLastActive)
                (setProp (js "branches") (or_else branches defaultBranches)
                   (ownProps repo)))).

(** The callback of the [data.map] of the second version. *)
Definition formatBare (repo : value) : completion value :=
  full_name ← get repo (js "full_name");
  owner ← splitHead full_name;
  name ← get repo (js "name");
  branches ← get repo (js "branches");
  lastActive ← get repo (js "lastActive");
  Normal (VObj [ (js "full_name", full_name);
                  (js "owner", owner);
                  (js "name", name);
                  (js "branches", or_else branches defaultBranches);
                  (js "lastActive", or_else lastActive defaultLastActive) ]).

(** The [if (data.repositories && Array.isArray(data.repositories))]
    branch and its [else]. *)
Definition formatWrapped (data : value) : completion (list value) :=
  repos ← get data (js "repositories");
  if (toBoolean repos && isArray repos)%bool
  then match repos with
       | VArr items => mapM formatSpread items
       | _ => Throw (Error (js "Invalid response format"))
       end
  else Throw (Error (js "Invalid response format")).

(** The three state updates and the toast of the [catch] block, then
    the [finally]. *)
Definition failed (e : thrown) (st : State) : State * list Effect :=
  ({| searchQuery := searchQuery st; selectedRepo := selectedRepo st;
      repositories := []; filteredRepos := [];
      isLoading := false;
      error := Some (js "Failed to load repositories") |},
   [ShowToast {| title := js "Error loading repositories";
                 description := messageOf e;
                 variant := js "destructive" |}]).

Definition loaded (formattedRepos : list value) (st : State) : State * list Effect :=
  ({| searchQuery := searchQuery st; selectedRepo := selectedRepo st;
      repositories := formattedRepos; filteredRepos := formattedRepos;
      isLoading := false; error := None |}, []).

Definition finish (c : completion (list value)) (st : State) : State * list Effect :=
  match c with
  | Normal formattedRepos => loaded formattedRepos st
  | Throw e => failed e st
  end.

(** First version: the token travels as a bearer credential. *)
Module V1.
Definition request (env : option jsstring) (githubToken : jsstring) : Request :=
  {| url := backendUrl env ++ js "/api/repositories";
     method := js "GET";
     headers := [ (js "Content-Type", js "application/json");
                  (js "Authorization", js "Bearer " ++ githubToken) ];
     body := NoBody |}.

Definition tryBlock (r : FetchResult) : completion (list value) :=
  match r with
  | Rejected => Throw TypeError
  | NotOk _ statusText _ =>
      Throw (Error (js "Failed to fetch repositories: " ++ statusText))
  | JsonRejected => Throw SyntaxError
  | Json data => formatWrapped data
  end.

Definition fetchRepositories (env githubToken : option jsstring)
    (r : FetchResult) (st : State) : State * list Effect :=
  match githubToken with
  | Some (c :: t) =>
      let (st', effects) := finish (tryBlock r) st in
      (st', Fetch (request env (c :: t)) :: effects)
  | _ => (st, [])
  end.
End V1.

(** Second version: the token travels in a [GitHub-Token] header and a
    bare array is accepted too. *)
Module V2.
Definition request (env : option jsstring) (githubToken : jsstring) : Request :=
  {| url := backendUrl env ++ js "/api/repositories";
     method := js "GET";
     headers := [ (js "Content-Type", js "application/json");
                  (js "GitHub-Token", githubToken) ];
     body := NoBody |}.

Definition tryBlock (r : FetchResult) : completion (list value) :=
  match r with
  | Rejected => Throw TypeError
  | NotOk status statusText errorText =>
      Throw (Error (js "Failed to fetch repositories: " ++ toString status
                    ++ js " " ++ statusText ++ js " - " ++ errorText))
  | JsonRejected => Throw SyntaxError
  | Json data =>
      match data with
      | VArr items => mapM formatBare items
      | _ => formatWrapped data
      end
  end.

Definition fetchRepositories (env githubToken : option jsstring)
    (r : FetchResult) (st : State) : State * list Effect :=
  match githubToken with
  | Some (c :: t) =>
      let (st', effects) := finish (tryBlock r) st in
      (st', Fetch (request env (c :: t)) :: effects)
  | _ => (st, [])
  end.
End V2.
End RepositorySidebar.

(** ** Chat interface *)

Module ChatInterface.
Record Message := {
  id : jsstring;
  role : ChatRole;
  content : jsstring;
  timestamp : N;
}.

Record Props := {
  selectedRepo : option jsstring;
  githubToken : option jsstring;
}.

Record State := {
  messages : list Message;
  input : jsstring;
  isLoading : bool;
  conversationId : option jsstring;
}.

(** The two readings of the clock a message takes: [Date.now()] for its
    id and [new Date()] for its timestamp. *)
Record Clock := {
  dateNow : N;
  newDate : N;
}.

(** The fields of the JSON body of a 2xx answer that the handler reads,
    typed as the /api/chat contract has them; [None] is an absent or
    null field. *)
Record ChatData := {
  response : option jsstring;
  conversation_id : option jsstring;
}.

(** How [fetch] and the reading of its response end. *)
Inductive Outcome :=
| FetchRejected
| HttpError (statusText : jsstring)
| BodyRejected
| Answer (data : ChatData).

Definition setMessages (f : list Message -> list Message) (st : State) : State :=
  {| messages := f (messages st); input := input st;
     isLoading := isLoading st; conversationId := conversationId st |}.
Definition setInput (s : jsstring) (st : State) : State :=
  {| messages := messages st; input := s;
     isLoading := isLoading st; conversationId := conversationId st |}.
Definition setIsLoading (b : bool) (st : State) : State :=
  {| messages := messages st; input := input st;
     isLoading := b; conversationId := conversationId st |}.
Definition setConversationId (c : option jsstring) (st : State) : State :=
  {| messages := messages st; input := input st;
     isLoading := isLoading st; conversationId := c |}.

Definition welcome (repo : jsstring) (now : N) : Message :=
  {| id := js "welcome";
     role := assistant;
     content := js "Welcome to the " ++ repo
                ++ js " repository chat! I will focus on analyzing the existing files and structure within this repository. How can I assist you today?";
     timestamp := now |}.

(** The effect with dependency [selectedRepo]. *)
Definition onSelectedRepo (repo : option jsstring) (now : N) (st : State) : State :=
  match repo with
  | Some (c :: r) =>
      setConversationId None (setMessages (fun _ => [welcome (c :: r) now]) st)
  | _ => setConversationId None (setMessages (fun _ => []) st)
  end.

Definition request (env : option jsstring) (token repo : jsstring) (st : State)
    : Request :=
  {| url := backendUrl env ++ js "/api/chat";
     method := js "POST";
     headers := [ (js "Content-Type", js "application/json");
                  (js "Authorization", js "Bearer " ++ token) ];
     body := ChatBody (input st) repo
               (map (fun msg => (role msg, content msg)) (messages st))
               (conversationId st) |}.

(** What [handleSendMessage] does before it suspends at [await fetch]. *)
Inductive Started :=
| Returned (effects : list Effect)
| Awaiting (st : State) (r : Request).

Definition start (env : option jsstring) (p : Props) (clk : Clock) (st : State)
    : Started :=
  match trim (input st), selectedRepo p with
  | _ :: _, Some (c :: repo) =>
      match githubToken p with
      | Some (d :: token) =>
          let userMessage :=
            {| id := toString (dateNow clk); role := user;
               content := input st; timestamp := newDate clk |} in
          Awaiting
            (setIsLoading true
               (setInput [] (setMessages (fun prev => prev ++ [userMessage]) st)))
            (request env (d :: token) (c :: repo) st)
      | _ =>
          Returned
            [ShowToast {| title := js "Authentication required";
                          description :=
                            Text (js "Please sign in with GitHub to use the chat feature");
                          variant := js "destructive" |}]
      end
  | _, _ => Returned []
  end.

(** The part of the [try] block after the [await]: what it throws, or
    the data it goes on with. *)
Definition received (o : Outcome) : completion ChatData :=
  match o with
  | FetchRejected => Throw TypeError
  | HttpError statusText => Throw (Error (js "API error: " ++ statusText))
  | BodyRejected => Throw SyntaxError
  | Answer data => Normal data
  end.

Definition apology : jsstring :=
  js "Sorry, I couldn't analyze that. Please try again.".
Definition errorText : jsstring :=
  js "Sorry, there was an error processing your request. Please try again later.".

(** The continuation that runs when the fetch has settled: the rest of
    [try], or [catch], then [finally]. *)
Definition settle (clk : Clock) (o : Outcome) (st : State) : State * list Effect :=
  match received o with
  | Normal data =>
      let assistantMessage :=
        {| id := toString (dateNow clk + 1); role := assistant;
           content := if truthy (response data)
                      then default [] (response data) else apology;
           timestamp := newDate clk |} in
      let st1 := setMessages (fun prev => prev ++ [assistantMessage]) st in
      let st2 := if truthy (conversation_id data)
                 then setConversationId (conversation_id data) st1 else st1 in
      (setIsLoading false st2, [])
  | Throw e =>
      let errorMessage :=
        {| id := toString (dateNow clk + 1); role := assistant;
           content := errorText; timestamp := newDate clk |} in
      (setIsLoading false (setMessages (fun prev => prev ++ [errorMessage]) st),
       [ShowToast {| title := js "Chat error";
                     description := messageOf e;
                     variant := js "destructive" |}])
  end.

(** A call of [handleSendMessage] that nothing interrupts between the
    request and its answer. *)
Definition handleSendMessage (env : option jsstring) (p : Props)
    (clk clk' : Clock) (o : Outcome) (st : State) : State * list Effect :=
  match start env p clk st with
  | Returned effects => (st, effects)
  | Awaiting st1 r =>
      let (st2, effects) := settle clk' o st1 in
      (st2, Fetch r :: effects)
  end.

(** *** The component between events

    [handleSendMessage] is asynchronous: while a request is in flight
    the user may pick another repository, type, or send again (the
    Enter key is not disabled while loading).  A run of the component
    is a sequence of events; the log keeps the requests sent and the
    answers that reached the handler. *)

Inductive Event :=
| SelectRepo (repo : option jsstring) (now : N)
| SetToken (token : option jsstring)
| Type_ (s : jsstring)
| Submit (clk : Clock)
| Settle (k : nat) (clk : Clock) (o : Outcome).

Inductive LogEntry :=
| Sent (r : Request)
| Answered (r : Request) (data : ChatData).

Record Component := {
  props : Props;
  state : State;
  inflight : list Request;
  effects : list Effect;
  log : list LogEntry;
}.

Definition mount : Component :=
  {| props := {| selectedRepo := None; githubToken := None |};
     state := {| messages := []; input := []; isLoading := false;
                 conversationId := None |};
     inflight := []; effects := []; log := [] |}.

Definition answeredEntry (r : Request) (o : Outcome) : list LogEntry :=
  match o with
  | Answer data => [Answered r data]
  | _ => []
  end.

Definition step (env : option jsstring) (c : Component) (e : Event) : Component :=
  match e with
  | SelectRepo repo now =>
      {| props := {| selectedRepo := repo; githubToken := githubToken (props c) |};
         state := if decide (repo = selectedRepo (props c)) then state c
                  else onSelectedRepo repo now (state c);
         inflight := inflight c; effects := effects c; log := log c |}
  | SetToken token =>
      {| props := {| selectedRepo := selectedRepo (props c); githubToken := token |};
         state := state c;
         inflight := inflight c; effects := effects c; log := log c |}
  | Type_ s =>
      {| props := props c; state := setInput s (state c);
         inflight := inflight c; effects := effects c; log := log c |}
  | Submit clk =>
      match start env (props c) clk (state c) with
      | Returned effs =>
          {| props := props c; state := state c; inflight := inflight c;
             effects := effects c ++ effs; log := log c |}
      | Awaiting st r =>
          {| props := props c; state := st; inflight := inflight c ++ [r];
             effects := effects c ++ [Fetch r]; log := log c ++ [Sent r] |}
      end
  | Settle k clk o =>
      match inflight c !! k with
      | Some r =>
          let (st, effs) := settle clk o (state c) in
          {| props := props c; state := st; inflight := delete k (inflight c);
             effects := effects c ++ effs;
             log := log c ++ answeredEntry r o |}
      | None => c
      end
  end.

Definition run (env : option jsstring) (events : list Event) : Component :=
  foldl (step env) mount events.

Definition repositoryOf (r : Request) : option jsstring :=
  match body r with
  | ChatBody _ repo _ _ => Some repo
  | NoBody => None
  end.

Definition conversationOf (r : Request) : option jsstring :=
  match body r with
  | ChatBody _ _ _ cid => cid
  | NoBody => None
  end.

(** Did an answer in [log] carry the id [cid] for a request that named
    [repo]? *)
Definition issuedFor (cid repo : jsstring) (log : list LogEntry) : bool :=
  existsb (fun entry =>
             match entry with
             | Answered r data =>
                 bool_decide (conversation_id data = Some cid
                              /\ repositoryOf r = Some repo)
             | Sent _ => false
             end) log.

(** A request that carries a conversation id is in order after [seen]
    when an answer in [seen] issued this id for the repository the
    request names. *)
Definition entryOk (seen : list LogEntry) (entry : LogEntry) : bool :=
  match entry with
  | Sent r =>
      match conversationOf r, repositoryOf r with
      | Some cid, Some repo => issuedFor cid repo seen
      | Some _, None => false
      | None, _ => true
      end
  | Answered _ _ => true
  end.

(** Every request of [todo] is in order after what precedes it. *)
Fixpoint idsKeepRepository (seen todo : list LogEntry) : bool :=
  match todo with
  | [] => true
  | entry :: rest =>
      (entryOk seen entry && idsKeepRepository (seen ++ [entry]) rest)%bool
  end.

(** The actions of a user who waits for each answer: nothing happens
    between a request and the moment it settles. *)
Inductive Action :=
| Select (repo : option jsstring) (now : N)
| Token (token : option jsstring)
| Typing (s : jsstring)
| Send (clk clk' : Clock) (o : Outcome).

Definition expand (a : Action) : list Event :=
  match a with
  | Select repo now => [SelectRepo repo now]
  | Token token => [SetToken token]
  | Typing s => [Type_ s]
  | Send clk clk' o => [Submit clk; Settle 0 clk' o]
  end.

(** What holds between the actions of a user who waits for each answer. *)
Definition settled (c : Component) : Prop :=
  inflight c = [] /\
  idsKeepRepository [] (log c) = true /\
  forall cid, conversationId (state c) = Some cid ->
    exists repo, selectedRepo (props c) = Some repo
                 /\ issuedFor cid repo (log c) = true.
End ChatInterface.

(** ** Backend: conversation store and chat orchestrator

    The Python backend is not among the sources; this part follows the
    specification (data model, conversation store, chat orchestrator). *)

Module ConversationStore.
Record Message := {
  role : ChatRole;
  content : jsstring;
  timestamp : N;
}.

Record Conversation := {
  id : jsstring;
  repository : jsstring;
  messages : list Message;
}.

(** Modelled from the spec: the store of the backend, a mapping from
    conversation id to conversation together with the ids in creation
    order (for the lookup by repository). *)
Record Store := {
  conversations : gmap jsstring Conversation;
  created : list jsstring;
}.

Definition empty : Store := {| conversations := ∅; created := [] |}.

Inductive ChatError :=
| ValidationError
| NotFound
| UpstreamUnavailable
| AnalysisError.

(** The ways the agent's [ask] ends. *)
Inductive AgentResult :=
| Replied (answer : jsstring)
| TimedOut
| Failed
| Malformed.

Record Reply := {
  answer : jsstring;
  conversationId : jsstring;
}.

(** A call of [chat] with the instant it is served at and the agent's
    behaviour on the context it is handed (repository and history). *)
Record Call := {
  question : jsstring;
  call_repository : jsstring;
  priorMessages : list Message;
  call_conversationId : option jsstring;
  now : N;
  ask : jsstring -> list (ChatRole * jsstring) -> AgentResult;
}.

Section Store.
(** The id generator of [create]; the spec only asks for an id that
    is fresh. *)
Variable newId : Store -> jsstring.

(** Modelled from the spec: [create(repository)] of the backend's
    store, which registers an empty conversation under a new id. *)
Definition create (repo : jsstring) (s : Store) : jsstring * Store :=
  let cid := newId s in
  (cid,
   {| conversations :=
        <[cid := {| id := cid; repository := repo; messages := [] |}]>
          (conversations s);
      created := created s ++ [cid] |}).

(** Modelled from the spec: [get(conversation_id)] of the backend's
    store; [None] is NotFound. *)
Definition get (cid : jsstring) (s : Store) : option Conversation :=
  conversations s !! cid.

(** Modelled from the spec: [append(conversation_id, message)] of the
    backend's store; [None] is NotFound. *)
Definition append (cid : jsstring) (m : Message) (s : Store) : option Store :=
  match conversations s !! cid with
  | Some c =>
      Some {| conversations :=
                <[cid := {| id := id c; repository := repository c;
                            messages := messages c ++ [m] |}]>
                  (conversations s);
              created := created s |}
  | None => None
  end.

(** Modelled from the spec: [listByRepository(repository)] of the
    backend's store, in creation order. *)
Definition listByRepository (repo : jsstring) (s : Store) : list Conversation :=
  filter (fun c => repository c = repo)
         (omap (fun cid => conversations s !! cid) (created s)).

(** Modelled from the spec: step 1 of the orchestrator's [chat], the
    conversation the call continues, or a new one. *)
Definition resolve (c : Call) (s : Store) : jsstring * Store :=
  match call_conversationId c with
  | Some cid =>
      match conversations s !! cid with
      | Some _ => (cid, s)
      | None => create (call_repository c) s
      end
  | None => create (call_repository c) s
  end.

Definition history (cid : jsstring) (s : Store) : list (ChatRole * jsstring) :=
  match conversations s !! cid with
  | Some c => map (fun m => (role m, content m)) (messages c)
  | None => []
  end.

(** Modelled from the spec: [chat] of the backend's orchestrator,
    steps 1 to 6 of its contract, with the empty question rejected
    before the store is touched. *)
Definition chat (c : Call) (s : Store) : Store * (ChatError + Reply) :=
  match question c with
  | [] => (s, inl ValidationError)
  | _ :: _ =>
      let (cid, s1) := resolve c s in
      match append cid {| role := user; content := question c;
                          timestamp := now c |} s1 with
      | None => (s1, inl NotFound)
      | Some s2 =>
          match ask c (call_repository c) (history cid s2) with
          | Replied a =>
              match append cid {| role := assistant; content := a;
                                  timestamp := now c |} s2 with
              | Some s3 => (s3, inr {| answer := a; conversationId := cid |})
              | None => (s2, inl NotFound)
              end
          | TimedOut | Failed => (s2, inl UpstreamUnavailable)
          | Malformed => (s2, inl AnalysisError)
          end
      end
  end.

(** Modelled from the spec: a sequence of calls of the orchestrator's
    [chat], with the result of each. *)
Fixpoint chats (calls : list Call) (s : Store)
    : Store * list (ChatError + Reply) :=
  match calls with
  | [] => (s, [])
  | c :: rest =>
      let (s1, r) := chat c s in
      let (s2, rs) := chats rest s1 in
      (s2, r :: rs)
  end.
End Store.

(** The ids that a list of results handed out. *)
Definition returnedIds (rs : list (ChatError + Reply)) : list jsstring :=
  omap (fun r => match r with
                 | inr reply => Some (conversationId reply)
                 | inl _ => None
                 end) rs.

(** A generator for the examples: the first id unused so far. *)
Definition firstUnused (s : Store) : jsstring := fresh (dom (conversations s)).
End ConversationStore.

(** ** Backend: health endpoint and the script that probes it *)

Module Backend.
Record HttpResponse := {
  status : N;
  json : value;
}.

(** Modelled from the spec: the backend's handler of GET /api/health,
    which answers [{status: "healthy"}] whatever the request carries;
    the status code 200 is the one the test script expects. *)
Definition health (headers : list (jsstring * jsstring)) : HttpResponse :=
  {| status := 200; json := VObj [(js "status", VStr (js "healthy"))] |}.

(** Modelled from the spec: the routing of the backend, as far as the
    health endpoint goes; [None] is a route that is not modelled. *)
Definition route (r : Request) (path : jsstring) : option HttpResponse :=
  if decide (method r = js "GET" /\ path = js "/api/health")
  then Some (health (headers r)) else None.

(** [curl -s ${API_URL}${endpoint}]: a GET without any header. *)
Definition curl (apiUrl endpoint : jsstring) : Request :=
  {| url := apiUrl ++ endpoint; method := js "GET"; headers := [];
     body := NoBody |}.

(** [jq -r ".key"] on an object, for the values whose raw form is
    plain: a string prints as its text, a missing key as [null]. *)
Definition jq_r (key : jsstring) (v : value) : option jsstring :=
  match v with
  | VObj props =>
      match lookupProp key props with
      | VStr s => Some s
      | VUndefined | VNull => Some (js "null")
      | VBool true => Some (js "true")
      | VBool false => Some (js "false")
      | _ => None
      end
  | _ => None
  end.

Inductive TestLine :=
| StatusAsExpected
| StatusUnexpected (got : option N)
| ValueAsExpected
| ValueUnexpected (got : option jsstring).

(** [test_json_endpoint] of the test script, with [jq] installed: the
    status line, then the line for the key when one is given. *)
Definition test_json_endpoint (server : Request -> jsstring -> option HttpResponse)
    (apiUrl endpoint : jsstring) (expected_status : N)
    (json_key expected_value : jsstring) : list TestLine :=
  let answer := server (curl apiUrl endpoint) endpoint in
  if decide (status <$> answer = Some expected_status) then
    StatusAsExpected ::
    match json_key with
    | [] => []
    | _ :: _ =>
        let actual_value := answer ≫= (fun a => jq_r json_key (json a)) in
        if decide (actual_value = Some expected_value)
        then [ValueAsExpected] else [ValueUnexpected actual_value]
    end
  else [StatusUnexpected (status <$> answer)].
End Backend.

(** ** Reading requests, effects and results *)

(** The value of the header [k] of a request, as it was written. *)
Definition header (k : jsstring) (r : Request) : option jsstring :=
  snd <$> List.find (fun kv => bool_decide (kv.1 = k)) (headers r).

Fixpoint stripPrefix (p s : jsstring) : option jsstring :=
  match p, s with
  | [], _ => Some s
  | a :: p', b :: s' => if N.eqb a b then stripPrefix p' s' else None
  | _ :: _, [] => None
  end.

(** The credential of an [Authorization: Bearer ...] header. *)
Definition bearerToken (r : Request) : option jsstring :=
  header (js "Authorization") r ≫= stripPrefix (js "Bearer ").

Definition fetches (effects : list Effect) : list Request :=
  omap (fun e => match e with Fetch r => Some r | _ => None end) effects.

Definition toasts (effects : list Effect) : list Toast :=
  omap (fun e => match e with ShowToast t => Some t | _ => None end) effects.

(** The part of [s] before the first "/". *)
Definition beforeSlash (s : jsstring) : jsstring :=
  match split 47 s with
  | seg :: _ => seg
  | [] => []
  end.

(** The property [k] of a formatted repository. *)
Definition prop (k : jsstring) (repo : value) : value :=
  match repo with
  | VObj props => lookupProp k props
  | _ => VUndefined
  end.

(** An element of a bare array that the second version can format: its
    [full_name] is a string. *)
Definition hasFullName (repo : value) : Prop :=
  exists s, prop (js "full_name") repo = VStr s.

(** An element that has properties to read: neither [null] nor
    [undefined]. *)
Definition readable (repo : value) : Prop :=
  repo <> VNull /\ repo <> VUndefined.

(** What [formatBare] makes of [repo]. *)
Definition bareFormatOf (repo formatted : value) : Prop :=
  exists s,
    prop (js "full_name") repo = VStr s /\
    formatted
    = VObj [ (js "full_name", VStr s);
             (js "owner", VStr (beforeSlash s));
             (js "name", prop (js "name") repo);
             (js "branches",
              or_else (prop (js "branches") repo) RepositorySidebar.defaultBranches);
             (js "lastActive",
              or_else (prop (js "lastActive") repo)
                      RepositorySidebar.defaultLastActive) ].

(** What [formatSpread] makes of [repo]: the element's own properties,
    with [branches] and [lastActive] defaulted. *)
Definition spreadFormatOf (repo formatted : value) : Prop :=
  exists props,
    formatted = VObj props /\
    forall k : jsstring,
      lookupProp k props
      = if decide (k = js "branches")
        then or_else (prop (js "branches") repo) RepositorySidebar.defaultBranches
        else if decide (k = js "lastActive")
        then or_else (prop (js "lastActive") repo)
                     RepositorySidebar.defaultLastActive
        else lookupProp k (ownProps repo).

(** A body that is neither of the two shapes. *)
Definition otherShape (data : value) : Prop :=
  isArray data = false /\
  forall props items, data = VObj props ->
    lookupProp (js "repositories") props <> VArr items.

(** A repository as the backend lists it, without an [owner] field. *)
Definition demoRepo : value :=
  VObj [ (js "full_name", VStr (js "octo/demo")); (js "name", VStr (js "demo")) ].

(** A chat session for the examples: a signed-in user on the repository
    octo/demo who has typed a question. *)
Definition demoProps : ChatInterface.Props :=
  {| ChatInterface.selectedRepo := Some (js "octo/demo");
     ChatInterface.githubToken := Some (js "t") |}.

Definition demoChat : ChatInterface.State :=
  {| ChatInterface.messages := [ChatInterface.welcome (js "octo/demo") 1000];
     ChatInterface.input := js "What is this repo about?";
     ChatInterface.isLoading := false;
     ChatInterface.conversationId := Some (js "c1") |}.

Definition clockAt (t : N) : ChatInterface.Clock :=
  {| ChatInterface.dateNow := t; ChatInterface.newDate := t |}.

(** The user message and the error message of a call of
    [handleSendMessage]. *)
Definition userMessageOf (clk : ChatInterface.Clock) (st : ChatInterface.State)
    : ChatInterface.Message :=
  {| ChatInterface.id := toString (ChatInterface.dateNow clk);
     ChatInterface.role := user;
     ChatInterface.content := ChatInterface.input st;
     ChatInterface.timestamp := ChatInterface.newDate clk |}.

Definition errorMessageOf (clk : ChatInterface.Clock) : ChatInterface.Message :=
  {| ChatInterface.id := toString (ChatInterface.dateNow clk + 1);
     ChatInterface.role := assistant;
     ChatInterface.content := ChatInterface.errorText;
     ChatInterface.timestamp := ChatInterface.newDate clk |}.

(** The run in which an answer arrives after the user has moved on to
    another repository. *)
Definition staleAnswer : list ChatInterface.Event :=
  [ ChatInterface.SetToken (Some (js "t"));
    ChatInterface.SelectRepo (Some (js "octo/a")) 1000;
    ChatInterface.Type_ (js "What is this repo about?");
    ChatInterface.Submit (clockAt 2000);
    ChatInterface.SelectRepo (Some (js "octo/b")) 3000;
    ChatInterface.Settle 0 (clockAt 4000)
      (ChatInterface.Answer
         {| ChatInterface.response := Some (js "A demo.");
            ChatInterface.conversation_id := Some (js "c1") |});
    ChatInterface.Type_ (js "And this one?");
    ChatInterface.Submit (clockAt 5000) ].

(** Two questions that open a conversation each, with an agent that
    answers. *)
Definition demoCall (q : string) : ConversationStore.Call :=
  {| ConversationStore.question := js q;
     ConversationStore.call_repository := js "octo/demo";
     ConversationStore.priorMessages := [];
     ConversationStore.call_conversationId := None;
     ConversationStore.now := 1000;
     ConversationStore.ask := fun _ _ => ConversationStore.Replied (js "A demo.") |}.

Definition demoCalls : list ConversationStore.Call :=
  [demoCall "What is this repo about?"; demoCall "And its tests?"].

(** Analyses for the examples: four files of four kinds with chunks of
    every severity, and a file whose chunks are all clean. *)
Definition chunkScored (q : Q) : ChunkAnalysis.t :=
  {| ChunkAnalysis.content_type := js "function";
     ChunkAnalysis.context := [];
     ChunkAnalysis.quality_score := q;
     ChunkAnalysis.insights := [];
     ChunkAnalysis.suggestions := [] |}.

Definition analysisOf (scores : list (string * Q)) : FileAnalysis.t :=
  {| FileAnalysis.lint_score := 7;
     FileAnalysis.chunks :=
       list_to_map (map (fun kq => (js kq.1, chunkScored kq.2)) scores);
     FileAnalysis.recent_changes := [];
     FileAnalysis.insights := [];
     FileAnalysis.suggestions := [];
     FileAnalysis.repo_context := [] |}.

Definition demoAnalyses : gmap jsstring FileAnalysis.t :=
  list_to_map
    [ (js "src/app.py", analysisOf [("main"%string, 4.5%Q); ("util"%string, 6%Q)]);
      (js "web/index.JS", analysisOf [("render"%string, 8.2%Q)]);
      (js "web/App.tsx", analysisOf [("App"%string, 9.5%Q)]);
      (js "README", analysisOf []) ].

Definition cleanAnalyses : gmap jsstring FileAnalysis.t :=
  list_to_map [ (js "lib.ts", analysisOf [("f"%string, 9%Q); ("g"%string, 9.7%Q)]) ].

(** [toLowerCase] on ASCII letters and [Math.round] of the exact
    quotient, for the examples. *)
Definition asciiLower (s : jsstring) : jsstring :=
  map (fun c => if (N.leb 65 c && N.leb c 90)%bool then (c + 32)%N else c) s.

Definition exactPercent (count total : nat) : nat :=
  (200 * count + total) / (2 * total).

(** ** Analytics panel: the other helpers and the loading of the data *)

Definition getScoreColor (score : Q) : jsstring :=
  if num_ge score 8.5 then js "border-green-500"
  else if num_ge score 7.0 then js "border-blue-500"
  else if num_ge score 5.5 then js "border-yellow-500"
  else if num_ge score 4.0 then js "border-orange-500"
  else js "border-red-500".

(** [path.split("/").pop() || path] *)
Definition getFileName (path : jsstring) : jsstring :=
  match last (split 47 path) with
  | Some (c :: seg) => c :: seg
  | _ => path
  end.

Module AnalyticsPanel.
Record CodeQualityResponse := {
  overall_score : Q;
  file_analyses : gmap jsstring FileAnalysis.t;
  summary : jsstring;
}.

Record Props := {
  selectedRepo : option jsstring;
  githubToken : option jsstring;
}.

Record State := {
  activeTab : jsstring;
  isLoading : bool;
  error : option text;
  analysisData : option CodeQualityResponse;
}.

(** The request of [fetchAnalysisData]; its body is [{ repository }]. *)
Record AnalyzeRequest := {
  url : jsstring;
  method : jsstring;
  headers : list (jsstring * jsstring);
  repository : jsstring;
}.

Inductive Effect :=
| Post (r : AnalyzeRequest)
| Notify (t : Toast).

(** How [fetch] and the reading of its response end.  [response.json()]
    is not checked against the /api/analyze contract: a 2xx answer whose
    body is the JSON [null] is stored as it is, and the state, of type
    [CodeQualityResponse | null], then holds [null] ([false], [0] and
    the empty string are falsy alike and read the same way by the
    component).  A body that is an object is taken to have the
    contract's shape. *)
Inductive Outcome :=
| FetchRejected
| HttpError (statusText : jsstring)
| BodyRejected
| NullAnswer
| Answer (data : CodeQualityResponse).

Definition request (env : option jsstring) (token repo : jsstring) : AnalyzeRequest :=
  {| url := backendUrl env ++ js "/api/analyze";
     method := js "POST";
     headers := [ (js "Content-Type", js "application/json");
                  (js "Authorization", js "Bearer " ++ token) ];
     repository := repo |}.

(** The value of [data] after [await response.json()], [None] for
    [null]. *)
Definition received (o : Outcome) : completion (option CodeQualityResponse) :=
  match o with
  | FetchRejected => Throw TypeError
  | HttpError statusText => Throw (Error (js "API error: " ++ statusText))
  | BodyRejected => Throw SyntaxError
  | NullAnswer => Normal None
  | Answer data => Normal (Some data)
  end.

Definition fetchAnalysisData (env : option jsstring) (p : Props) (o : Outcome)
    (st : State) : State * list Effect :=
  match selectedRepo p, githubToken p with
  | Some (c :: repo), Some (d :: token) =>
      match received o with
      | Normal data =>
          ({| activeTab := activeTab st; isLoading := false; error := None;
              analysisData := data |},
           [Post (request env (d :: token) (c :: repo))])
      | Throw e =>
          ({| activeTab := activeTab st; isLoading := false;
              error := Some (messageOf e);
              analysisData := analysisData st |},
           [Post (request env (d :: token) (c :: repo));
            Notify {| title := js "Analysis error";
                      description := messageOf e;
                      variant := js "destructive" |}])
      end
  | _, _ => (st, [])
  end.

(** The effect with dependencies [selectedRepo] and [githubToken]. *)
Definition onPropsChange (env : option jsstring) (p : Props) (o : Outcome)
    (st : State) : State * list Effect :=
  match selectedRepo p, githubToken p with
  | Some (_ :: _), Some (_ :: _) => fetchAnalysisData env p o st
  | _, _ =>
      ({| activeTab := activeTab st; isLoading := isLoading st;
          error := error st; analysisData := None |}, [])
  end.

(** What the panel renders, by the early returns of the component. *)
Inductive View :=
| NoRepositorySelected
| AuthenticationRequired
| AnalyzingRepository
| AnalysisError (message : jsstring)
| NoAnalysisData
| Dashboard (data : CodeQualityResponse).

Section Render.
(** The text the engine gives to a native error is a parameter. *)
Variable engineMessage : thrown -> jsstring.

Definition textOf (t : text) : jsstring :=
  match t with
  | Text s => s
  | EngineMessage e => engineMessage e
  end.

Definition render (p : Props) (st : State) : View :=
  match selectedRepo p with
  | Some (_ :: _) =>
      match githubToken p with
      | Some (_ :: _) =>
          if isLoading st then AnalyzingRepository
          else match textOf <$> error st with
               | Some (c :: m) => AnalysisError (c :: m)
               | _ =>
                   match analysisData st with
                   | Some data => Dashboard data
                   | None => NoAnalysisData
                   end
               end
      | _ => AuthenticationRequired
      end
  | _ => NoRepositorySelected
  end.
End Render.
End AnalyticsPanel.

(** ** Repository sidebar: search and selection *)

Fixpoint startsWith (s prefix : jsstring) : bool :=
  match prefix, s with
  | [], _ => true
  | a :: prefix', b :: s' => (N.eqb a b && startsWith s' prefix')%bool
  | _ :: _, [] => false
  end.

(** [s.includes(needle)] *)
Fixpoint includes (s needle : jsstring) : bool :=
  (startsWith s needle ||
   match s with
   | [] => false
   | _ :: s' => includes s' needle
   end)%bool.

(** [Array.prototype.filter] with a callback that may throw. *)
Fixpoint filterM {A} (f : A -> completion bool) (l : list A) : completion (list A) :=
  match l with
  | [] => Normal []
  | a :: rest =>
      keep ← f a; kept ← filterM f rest;
      Normal (if keep : bool then a :: kept else kept)
  end.

Module SidebarSearch.
Section Search.
Variable toLowerCase : jsstring -> jsstring.

(** [v.toLowerCase()]: only a string has the method. *)
Definition lower (v : value) : completion jsstring :=
  match v with
  | VStr s => Normal (toLowerCase s)
  | _ => Throw TypeError
  end.

(** The callback of the filter: the name is tried first, the owner only
    when the name does not match. *)
Definition matchesQuery (searchQuery : jsstring) (repo : value) : completion bool :=
  name ← get repo (js "name");
  loweredName ← lower name;
  if includes loweredName (toLowerCase searchQuery) then Normal true
  else
    owner ← get repo (js "owner");
    loweredOwner ← lower owner;
    Normal (includes loweredOwner (toLowerCase searchQuery)).

(** The effect with dependencies [searchQuery] and [repositories]. *)
Definition filterRepos (st : RepositorySidebar.State)
    : completion RepositorySidebar.State :=
  match trim (RepositorySidebar.searchQuery st) with
  | [] =>
      Normal {| RepositorySidebar.searchQuery := RepositorySidebar.searchQuery st;
                RepositorySidebar.selectedRepo := RepositorySidebar.selectedRepo st;
                RepositorySidebar.repositories := RepositorySidebar.repositories st;
                RepositorySidebar.filteredRepos := RepositorySidebar.repositories st;
                RepositorySidebar.isLoading := RepositorySidebar.isLoading st;
                RepositorySidebar.error := RepositorySidebar.error st |}
  | _ :: _ =>
      filtered ← filterM (matchesQuery (RepositorySidebar.searchQuery st))
                         (RepositorySidebar.repositories st);
      Normal {| RepositorySidebar.searchQuery := RepositorySidebar.searchQuery st;
                RepositorySidebar.selectedRepo := RepositorySidebar.selectedRepo st;
                RepositorySidebar.repositories := RepositorySidebar.repositories st;
                RepositorySidebar.filteredRepos := filtered;
                RepositorySidebar.isLoading := RepositorySidebar.isLoading st;
                RepositorySidebar.error := RepositorySidebar.error st |}
  end.
End Search.

(** [handleRepoSelect]: the new state and the name given to
    [onSelectRepo]. *)
Definition handleRepoSelect (repoName owner : jsstring)
    (st : RepositorySidebar.State) : RepositorySidebar.State * jsstring :=
  let fullName := owner ++ js "/" ++ repoName in
  ({| RepositorySidebar.searchQuery := RepositorySidebar.searchQuery st;
      RepositorySidebar.selectedRepo := Some fullName;
      RepositorySidebar.repositories := RepositorySidebar.repositories st;
      RepositorySidebar.filteredRepos := RepositorySidebar.filteredRepos st;
      RepositorySidebar.isLoading := RepositorySidebar.isLoading st;
      RepositorySidebar.error := RepositorySidebar.error st |},
   fullName).

(** The [isActive] of a menu entry. *)
Definition isActive (st : RepositorySidebar.State) (repoName owner : jsstring) : bool :=
  bool_decide (RepositorySidebar.selectedRepo st = Some (owner ++ js "/" ++ repoName)).
End SidebarSearch.

(** ** Authentication widget *)

Module UserAuth.
Record UserInfo := {
  name : jsstring;
  avatar_url : jsstring;
}.

(** The fields of GitHub's answer to GET /user that the widget reads; the
    display name may be null. *)
Record GitHubUser := {
  user_name : option jsstring;
  login : jsstring;
  user_avatar_url : jsstring;
}.

Record State := {
  isSignInOpen : bool;
  token : jsstring;
  isAuthenticated : bool;
  userInfo : option UserInfo;
  isLoading : bool;
}.

(** A toast of the widget; only the failure has a variant. *)
Record Notice := {
  title : jsstring;
  description : jsstring;
  destructive : bool;
}.

(** The widget with what it shares with the rest of the page: the
    [github_token] entry of [localStorage], the token it last gave to
    [onAuthChange] (the page starts with null), the requests it sent and
    the toasts it showed. *)
Record Widget := {
  state : State;
  localStorage : option jsstring;
  pageToken : option jsstring;
  requests : list Request;
  notices : list Notice;
}.

Inductive Outcome :=
| FetchRejected
| NotOk
| BodyRejected
| Ok (data : GitHubUser).

Definition initial : State :=
  {| isSignInOpen := false; token := []; isAuthenticated := false;
     userInfo := None; isLoading := false |}.

Definition request (accessToken : jsstring) : Request :=
  {| url := js "https://api.github.com/user";
     method := js "GET";
     headers := [ (js "Authorization", js "token " ++ accessToken) ];
     body := NoBody |}.

(** [data.name || data.login] *)
Definition displayName (data : GitHubUser) : jsstring :=
  match user_name data with
  | Some (c :: n) => c :: n
  | _ => login data
  end.

Definition fetchUserInfo (accessToken : jsstring) (o : Outcome) (w : Widget) : Widget :=
  match o with
  | Ok data =>
      {| state :=
           {| isSignInOpen := false; token := token (state w);
              isAuthenticated := true;
              userInfo := Some {| name := displayName data;
                                  avatar_url := user_avatar_url data |};
              isLoading := false |};
         localStorage := Some accessToken;
         pageToken := Some accessToken;
         requests := requests w ++ [request accessToken];
         notices := notices w ++
           [ {| title := js "Successfully authenticated";
                description := js "Welcome, " ++ displayName data ++ js "!";
                destructive := false |} ] |}
  | _ =>
      {| state :=
           {| isSignInOpen := false; token := token (state w);
              isAuthenticated := false; userInfo := None;
              isLoading := false |};
         localStorage := None;
         pageToken := pageToken w;
         requests := requests w ++ [request accessToken];
         notices := notices w ++
           [ {| title := js "Authentication failed";
                description :=
                  js "Please check your Personal Access Token and try again.";
                destructive := true |} ] |}
  end.

(** The effect that runs once, when the widget is mounted. *)
Definition onMount (o : Outcome) (w : Widget) : Widget :=
  match localStorage w with
  | Some (c :: storedToken) =>
      fetchUserInfo (c :: storedToken) o
        {| state := {| isSignInOpen := isSignInOpen (state w);
                       token := c :: storedToken;
                       isAuthenticated := isAuthenticated (state w);
                       userInfo := userInfo (state w);
                       isLoading := isLoading (state w) |};
           localStorage := localStorage w; pageToken := pageToken w;
           requests := requests w; notices := notices w |}
  | _ => w
  end.

Definition handleSignIn (o : Outcome) (w : Widget) : Widget :=
  match trim (token (state w)) with
  | _ :: _ => fetchUserInfo (token (state w)) o w
  | [] => w
  end.

Definition handleSignOut (w : Widget) : Widget :=
  {| state := {| isSignInOpen := isSignInOpen (state w); token := [];
                 isAuthenticated := false; userInfo := None;
                 isLoading := isLoading (state w) |};
     localStorage := None;
     pageToken := None;
     requests := requests w;
     notices := notices w ++
       [ {| title := js "Signed out";
            description := js "You have been signed out successfully.";
            destructive := false |} ] |}.

Definition setIsSignInOpen (b : bool) (w : Widget) : Widget :=
  {| state := {| isSignInOpen := b; token := token (state w);
                 isAuthenticated := isAuthenticated (state w);
                 userInfo := userInfo (state w);
                 isLoading := isLoading (state w) |};
     localStorage := localStorage w; pageToken := pageToken w;
     requests := requests w; notices := notices w |}.

Definition setToken (s : jsstring) (w : Widget) : Widget :=
  {| state := {| isSignInOpen := isSignInOpen (state w); token := s;
                 isAuthenticated := isAuthenticated (state w);
                 userInfo := userInfo (state w);
                 isLoading := isLoading (state w) |};
     localStorage := localStorage w; pageToken := pageToken w;
     requests := requests w; notices := notices w |}.

(** Is the user shown as signed in?  [isAuthenticated && userInfo] *)
Definition signedIn (st : State) : bool :=
  (isAuthenticated st && bool_decide (userInfo st <> None))%bool.

(** What the user can do with the widget.  The menu offers "Sign in with
    GitHub" when the user is not shown as signed in and "Sign out" when
    they are; the field, "Cancel" and "Sign In" are in the dialog, and
    "Sign In" is disabled while the token is blank or a check runs. *)
Inductive Click :=
| SignInWithGitHub
| Cancel
| TypeToken (s : jsstring)
| SignIn (o : Outcome)
| SignOut.

Definition click (w : Widget) (a : Click) : Widget :=
  match a with
  | SignInWithGitHub =>
      if signedIn (state w) then w else setIsSignInOpen true w
  | Cancel =>
      if isSignInOpen (state w) then setIsSignInOpen false w else w
  | TypeToken s =>
      if isSignInOpen (state w) then setToken s w else w
  | SignIn o =>
      if (isSignInOpen (state w) && negb (isLoading (state w)))%bool
      then handleSignIn o w else w
  | SignOut =>
      if signedIn (state w) then handleSignOut w else w
  end.

(** A visit of the page: the widget is mounted over what [localStorage]
    holds, then the user clicks; a check of the token has ended before
    the next click. *)
Definition visit (stored : option jsstring) (o : Outcome) (clicks : list Click)
    : Widget :=
  foldl click
        (onMount o {| state := initial; localStorage := stored;
                      pageToken := None; requests := []; notices := [] |})
        clicks.
End UserAuth.

(** ** Chat interface: what a run keeps *)

(** An answer of the log carried the conversation id [cid]. *)
Definition answerCarried (cid : jsstring) (log : list ChatInterface.LogEntry) : Prop :=
  exists r data,
    ChatInterface.Answered r data ∈ log /\
    ChatInterface.conversation_id data = Some cid.

(** The ids of the messages on display, the keys of the rendered list. *)
Definition messageKeys (st : ChatInterface.State) : list jsstring :=
  ChatInterface.id <$> ChatInterface.messages st.

(** An entry of the list has the two fields the menu reads. *)
Definition listed (entry : value) : Prop :=
  (exists props, entry = VObj props) /\
  toBoolean (prop (js "branches") entry) = true /\
  toBoolean (prop (js "lastActive") entry) = true.

(** An entry the search can read: its name and its owner are strings. *)
Definition searchable (repo : value) : Prop :=
  exists n o, get repo (js "name") = Normal (VStr n)
              /\ get repo (js "owner") = Normal (VStr o).

(** Does the lowered name or the lowered owner contain the lowered
    query? *)
Definition matchesText (toLowerCase : jsstring -> jsstring)
    (searchQuery : jsstring) (repo : value) : bool :=
  match prop (js "name") repo, prop (js "owner") repo with
  | VStr n, VStr o =>
      (includes (toLowerCase n) (toLowerCase searchQuery)
       || includes (toLowerCase o) (toLowerCase searchQuery))%bool
  | _, _ => false
  end.

(** The sidebar after the user has typed [q] in the search field. *)
Definition withSearchQuery (q : jsstring) (st : RepositorySidebar.State)
    : RepositorySidebar.State :=
  {| RepositorySidebar.searchQuery := q;
     RepositorySidebar.selectedRepo := RepositorySidebar.selectedRepo st;
     RepositorySidebar.repositories := RepositorySidebar.repositories st;
     RepositorySidebar.filteredRepos := RepositorySidebar.filteredRepos st;
     RepositorySidebar.isLoading := RepositorySidebar.isLoading st;
     RepositorySidebar.error := RepositorySidebar.error st |}.

(** Reading back a decimal numeral: the inverse of [toString]. *)
Definition parseDecimal (s : jsstring) : option N :=
  N.of_uint <$>
    NilEmpty.uint_of_string (string_of_list_ascii (map ascii_of_N s)).

(** What a run of the chat interface keeps, whatever the order of the
    events: no spinner without a request in flight, and no conversation
    id, stored or sent, that an answer did not carry before. *)
Definition runKeeps (c : ChatInterface.Component) : Prop :=
  (ChatInterface.inflight c = [] ->
   ChatInterface.isLoading (ChatInterface.state c) = false) /\
  (forall cid,
     ChatInterface.conversationId (ChatInterface.state c) = Some cid ->
     answerCarried cid (ChatInterface.log c)) /\
  (forall i r cid,
     ChatInterface.log c !! i = Some (ChatInterface.Sent r) ->
     ChatInterface.conversationOf r = Some cid ->
     answerCarried cid (take i (ChatInterface.log c))).

(** The history a request hands to the backend. *)
Definition historyOf (r : Request) : list (ChatRole * jsstring) :=
  match body r with
  | ChatBody _ _ messages _ => messages
  | NoBody => []
  end.

Definition questionOf (r : Request) : option jsstring :=
  match body r with
  | ChatBody question _ _ _ => Some question
  | NoBody => None
  end.

(** What holds of the authentication widget between clicks: no check is
    running, the dialog is open only for a user who is not signed in, the
    flag and the user's details go together, and the page holds a token
    exactly when the user is signed in, the one kept in [localStorage]. *)
Definition consistent (w : UserAuth.Widget) : Prop :=
  UserAuth.isLoading (UserAuth.state w) = false /\
  (UserAuth.isSignInOpen (UserAuth.state w) = true ->
   UserAuth.isAuthenticated (UserAuth.state w) = false) /\
  (UserAuth.isAuthenticated (UserAuth.state w) = true
   <-> UserAuth.userInfo (UserAuth.state w) <> None) /\
  (UserAuth.isAuthenticated (UserAuth.state w) = true ->
   exists c t, UserAuth.localStorage w = Some (c :: t)
               /\ UserAuth.pageToken w = Some (c :: t)) /\
  (UserAuth.isAuthenticated (UserAuth.state w) = false ->
   UserAuth.pageToken w = None).

(** * Properties *)

(** ** Letter grades *)

Lemma num_ge_true x y : num_ge x y = true <-> (y <= x)%Q.
Proof. apply Qle_bool_iff. Qed.

Lemma num_ge_false x y : num_ge x y = false <-> (x < y)%Q.
Proof.
  unfold num_ge. split; intros H.
  - apply Qnot_le_lt. intros Hle. apply Qle_bool_iff in Hle. congruence.
  - destruct (Qle_bool y x) eqn:E; [|done].
    apply Qle_bool_iff in E. exfalso. apply (Qlt_not_le _ _ H E).
Qed.

Lemma num_lt_true x y : num_lt x y = true <-> (x < y)%Q.
Proof.
  unfold num_lt. rewrite negb_true_iff. apply (num_ge_false x y).
Qed.

Lemma num_lt_false x y : num_lt x y = false <-> (y <= x)%Q.
Proof.
  unfold num_lt. rewrite negb_false_iff. apply Qle_bool_iff.
Qed.

(** Splits on every threshold test on [score] left in the goal. *)
Ltac grade_cases score :=
  repeat match goal with
    | |- context [num_ge score ?t] =>
        let E := fresh "E" in
        destruct (num_ge score t) eqn:E;
        [apply num_ge_true in E | apply num_ge_false in E]
    end.

Ltac pick_grade :=
  first [ split; [reflexivity | lra]
        | left; split; [reflexivity | lra]
        | right; pick_grade ].

Lemma gradeRank_cases (score : Q) :
  (gradeRank (getLetterGrade score) = 11 /\ (9.5 <= score)%Q) \/
  (gradeRank (getLetterGrade score) = 10 /\ (9.0 <= score < 9.5)%Q) \/
  (gradeRank (getLetterGrade score) = 9 /\ (8.5 <= score < 9.0)%Q) \/
  (gradeRank (getLetterGrade score) = 8 /\ (8.0 <= score < 8.5)%Q) \/
  (gradeRank (getLetterGrade score) = 7 /\ (7.5 <= score < 8.0)%Q) \/
  (gradeRank (getLetterGrade score) = 6 /\ (7.0 <= score < 7.5)%Q) \/
  (gradeRank (getLetterGrade score) = 5 /\ (6.5 <= score < 7.0)%Q) \/
  (gradeRank (getLetterGrade score) = 4 /\ (6.0 <= score < 6.5)%Q) \/
  (gradeRank (getLetterGrade score) = 3 /\ (5.5 <= score < 6.0)%Q) \/
  (gradeRank (getLetterGrade score) = 2 /\ (5.0 <= score < 5.5)%Q) \/
  (gradeRank (getLetterGrade score) = 1 /\ (4.0 <= score < 5.0)%Q) \/
  (gradeRank (getLetterGrade score) = 0 /\ (score < 4.0)%Q).
Proof.
  unfold getLetterGrade. grade_cases score.
  all: pick_grade.
Qed.

Lemma getLetterGrade_monotone (lower higher : Q) :
  (lower <= higher)%Q ->
  gradeRank (getLetterGrade lower) <= gradeRank (getLetterGrade higher).
Proof.
  intros H.
  destruct (gradeRank_cases lower)
    as [[-> ?]|[[-> ?]|[[-> ?]|[[-> ?]|[[-> ?]|[[-> ?]|[[-> ?]|[[-> ?]|[[-> ?]|[[-> ?]|[[-> ?]|[-> ?]]]]]]]]]]]];
  destruct (gradeRank_cases higher)
    as [[-> ?]|[[-> ?]|[[-> ?]|[[-> ?]|[[-> ?]|[[-> ?]|[[-> ?]|[[-> ?]|[[-> ?]|[[-> ?]|[[-> ?]|[-> ?]]]]]]]]]]]];
  first [ lia | exfalso; lra ].
Qed.

(** C10: for every score, [getLetterGrade] returns the grade of the first
    threshold the score reaches: "A+" iff score >= 9.5, "A" iff
    9.0 <= score < 9.5, "A-" iff 8.5 <= score < 9.0, "B+" iff
    8.0 <= score < 8.5, "B" iff 7.5 <= score < 8.0, "B-" iff
    7.0 <= score < 7.5, "C+" iff 6.5 <= score < 7.0, "C" iff
    6.0 <= score < 6.5, "C-" iff 5.5 <= score < 6.0, "D+" iff
    5.0 <= score < 5.5, "D" iff 4.0 <= score < 5.0 and "F" iff
    score < 4.0; hence a higher score never yields a lower grade. *)
Theorem getLetterGrade_thresholds (score : Q) :
  (getLetterGrade score = js "A+" <-> (9.5 <= score)%Q) /\
  (getLetterGrade score = js "A" <-> (9.0 <= score < 9.5)%Q) /\
  (getLetterGrade score = js "A-" <-> (8.5 <= score < 9.0)%Q) /\
  (getLetterGrade score = js "B+" <-> (8.0 <= score < 8.5)%Q) /\
  (getLetterGrade score = js "B" <-> (7.5 <= score < 8.0)%Q) /\
  (getLetterGrade score = js "B-" <-> (7.0 <= score < 7.5)%Q) /\
  (getLetterGrade score = js "C+" <-> (6.5 <= score < 7.0)%Q) /\
  (getLetterGrade score = js "C" <-> (6.0 <= score < 6.5)%Q) /\
  (getLetterGrade score = js "C-" <-> (5.5 <= score < 6.0)%Q) /\
  (getLetterGrade score = js "D+" <-> (5.0 <= score < 5.5)%Q) /\
  (getLetterGrade score = js "D" <-> (4.0 <= score < 5.0)%Q) /\
  (getLetterGrade score = js "F" <-> (score < 4.0)%Q) /\
  (forall higher : Q, (score <= higher)%Q ->
     gradeRank (getLetterGrade score) <= gradeRank (getLetterGrade higher)).
Proof.
  split_and!; [..| intros higher; apply getLetterGrade_monotone].
  all: unfold getLetterGrade; grade_cases score.
  all: split; intros; try discriminate; try reflexivity; try lra.
Qed.

Lemma getLetterGrade_thresholds_witness :
  getLetterGrade 8.7 = js "A-" /\
  gradeRank (getLetterGrade 8.7) <= gradeRank (getLetterGrade 9.2).
Proof.
  destruct (getLetterGrade_thresholds 8.7)
    as (_ & _ & Hgrade & _ & _ & _ & _ & _ & _ & _ & _ & _ & Hmono).
  split.
  - apply Hgrade. split; unfold Qle, Qlt; simpl; lia.
  - apply Hmono. unfold Qle; simpl; lia.
Defined.

(** ** Splitting a path *)

Lemma split_nonempty (sep : N) (s : jsstring) : split sep s <> [].
Proof.
  destruct s as [|c s]; simpl; [done|].
  destruct (N.eqb c sep); [done|]. by destruct (split sep s).
Qed.

Lemma split_without (sep : N) (s : jsstring) :
  sep ∉ s -> split sep s = [s].
Proof.
  induction s as [|c s IH]; intros Hs; [done|].
  apply not_elem_of_cons in Hs as [Hc Hs]. simpl.
  destruct (N.eqb_spec c sep) as [->|_]; [done|].
  by rewrite (IH Hs).
Qed.

Lemma split_at_separator (sep : N) (a b : jsstring) :
  split sep (a ++ sep :: b) = split sep a ++ split sep b.
Proof.
  induction a as [|c a IH]; simpl.
  - by rewrite N.eqb_refl.
  - destruct (N.eqb c sep); [by rewrite IH|].
    rewrite IH. pose proof (split_nonempty sep a).
    by destruct (split sep a).
Qed.

(** A string is free of the separator, or has a last occurrence of it. *)
Lemma last_occurrence (sep : N) (s : jsstring) :
  (sep ∉ s) \/ exists a b, s = a ++ sep :: b /\ (sep ∉ b).
Proof.
  induction s as [|c s [IH|(a & b & -> & Hb)]].
  - left. apply not_elem_of_nil.
  - destruct (decide (c = sep)) as [->|Hc].
    + right. by exists [], s.
    + left. by apply not_elem_of_cons.
  - right. by exists (c :: a), b.
Qed.

(** What [s.split(sep).pop()] is: the text after the last separator, or
    the whole string when there is none. *)
Lemma last_split (sep : N) (s : jsstring) :
  ((sep ∉ s) /\ last (split sep s) = Some s) \/
  (exists a b, s = a ++ sep :: b /\ (sep ∉ b) /\ last (split sep s) = Some b).
Proof.
  destruct (last_occurrence sep s) as [Hs|(a & b & -> & Hb)].
  - left. by rewrite split_without.
  - right. exists a, b. split_and!; [done..|].
    rewrite split_at_separator, (split_without _ _ Hb). apply last_snoc.
Qed.

(** ** Language distribution and issue severities *)

Section AnalyticsFacts.
Variable toLowerCase : jsstring -> jsstring.
Variable roundedPercent : nat -> nat -> nat.

Lemma languageIndex_cases (p : jsstring) :
  (languageIndex toLowerCase p = 0 /\ isPython toLowerCase p) \/
  (languageIndex toLowerCase p = 1 /\ ~ isPython toLowerCase p
     /\ isJavaScript toLowerCase p) \/
  (languageIndex toLowerCase p = 2 /\ ~ isPython toLowerCase p
     /\ ~ isJavaScript toLowerCase p /\ isTypeScript toLowerCase p) \/
  (languageIndex toLowerCase p = 3 /\ isOther toLowerCase p).
Proof.
  unfold languageIndex, isOther, isPython, isJavaScript, isTypeScript.
  repeat case_decide; tauto.
Qed.

(** The classes exclude each other. *)
Lemma language_classes_disjoint (p : jsstring) :
  (isPython toLowerCase p -> ~ isJavaScript toLowerCase p
     /\ ~ isTypeScript toLowerCase p /\ ~ isOther toLowerCase p) /\
  (isJavaScript toLowerCase p -> ~ isTypeScript toLowerCase p
     /\ ~ isOther toLowerCase p) /\
  (isTypeScript toLowerCase p -> ~ isOther toLowerCase p).
Proof.
  unfold isOther, isPython, isJavaScript, isTypeScript.
  split_and!; intros H; split_and?; intros H'; destruct_or?; destruct_and?;
    try tauto; try (rewrite H in *; discriminate);
    try (rewrite H in H'; discriminate).
Qed.

Lemma alter_languagesWith (py js_ ts other : nat) :
  alter incr 0 (languagesWith py js_ ts other) = languagesWith (S py) js_ ts other /\
  alter incr 1 (languagesWith py js_ ts other) = languagesWith py (S js_) ts other /\
  alter incr 2 (languagesWith py js_ ts other) = languagesWith py js_ (S ts) other /\
  alter incr 3 (languagesWith py js_ ts other) = languagesWith py js_ ts (S other).
Proof. by split_and!. Qed.

Lemma foldl_languages (paths : list jsstring) : forall py js_ ts other,
  foldl (fun languages filePath =>
           alter incr (languageIndex toLowerCase filePath) languages)
        (languagesWith py js_ ts other) paths
  = languagesWith
      (py + length (filter (isPython toLowerCase) paths))
      (js_ + length (filter (isJavaScript toLowerCase) paths))
      (ts + length (filter (isTypeScript toLowerCase) paths))
      (other + length (filter (isOther toLowerCase) paths)).
Proof.
  induction paths as [|p paths IH]; intros py js_ ts other.
  - simpl. by rewrite !Nat.add_0_r.
  - pose proof (language_classes_disjoint p) as (Hpy & Hjs & Hts).
    pose proof (alter_languagesWith py js_ ts other) as (A0 & A1 & A2 & A3).
    simpl foldl. rewrite !filter_cons.
    destruct (languageIndex_cases p)
      as [[-> H0]|[[-> (N0 & H1)]|[[-> (N0 & N1 & H2)]|[-> H3]]]].
    + specialize (Hpy H0) as (? & ? & ?).
      rewrite A0, IH.
      rewrite (decide_True (P := isPython _ _)), !decide_False by done.
      simpl. f_equal; lia.
    + specialize (Hjs H1) as (? & ?).
      rewrite A1, IH.
      rewrite (decide_True (P := isJavaScript _ _)), !decide_False by done.
      simpl. f_equal; lia.
    + specialize (Hts H2).
      rewrite A2, IH.
      rewrite (decide_True (P := isTypeScript _ _)), !decide_False by done.
      simpl. f_equal; lia.
    + destruct H3 as (N0 & N1 & N2).
      rewrite A3, IH.
      rewrite (decide_True (P := isOther _ _)), !decide_False by done.
      simpl. f_equal; lia.
Qed.

(** The counts of [calculateLanguageDistribution] by the value of [ext]
    that the loop body reads. *)
Lemma calculateLanguageDistribution_by_ext
    (fileAnalyses : gmap jsstring FileAnalysis.t) :
  let result := calculateLanguageDistribution toLowerCase roundedPercent fileAnalyses in
  let paths := keys fileAnalyses in
  (forall p : jsstring,
     (isPython toLowerCase p /\ ~ isJavaScript toLowerCase p
        /\ ~ isTypeScript toLowerCase p /\ ~ isOther toLowerCase p) \/
     (~ isPython toLowerCase p /\ isJavaScript toLowerCase p
        /\ ~ isTypeScript toLowerCase p /\ ~ isOther toLowerCase p) \/
     (~ isPython toLowerCase p /\ ~ isJavaScript toLowerCase p
        /\ isTypeScript toLowerCase p /\ ~ isOther toLowerCase p) \/
     (~ isPython toLowerCase p /\ ~ isJavaScript toLowerCase p
        /\ ~ isTypeScript toLowerCase p /\ isOther toLowerCase p)) /\
  name <$> result = [js "Python"; js "JavaScript"; js "TypeScript"; js "Other"] /\
  count <$> result = [ length (filter (isPython toLowerCase) paths);
                       length (filter (isJavaScript toLowerCase) paths);
                       length (filter (isTypeScript toLowerCase) paths);
                       length (filter (isOther toLowerCase) paths) ] /\
  sum_list (count <$> result) = size fileAnalyses /\
  calculateLanguageDistribution toLowerCase roundedPercent ∅
  = [ {| name := js "Python"; color := js "#3572A5"; count := 0; percentage := 0 |};
      {| name := js "JavaScript"; color := js "#f1e05a"; count := 0; percentage := 0 |};
      {| name := js "TypeScript"; color := js "#2b7489"; count := 0; percentage := 0 |};
      {| name := js "Other"; color := js "#8e8e8e"; count := 0; percentage := 0 |} ].
Proof.
  intros result paths.
  assert (Hclasses : forall p : jsstring,
     (isPython toLowerCase p /\ ~ isJavaScript toLowerCase p
        /\ ~ isTypeScript toLowerCase p /\ ~ isOther toLowerCase p) \/
     (~ isPython toLowerCase p /\ isJavaScript toLowerCase p
        /\ ~ isTypeScript toLowerCase p /\ ~ isOther toLowerCase p) \/
     (~ isPython toLowerCase p /\ ~ isJavaScript toLowerCase p
        /\ isTypeScript toLowerCase p /\ ~ isOther toLowerCase p) \/
     (~ isPython toLowerCase p /\ ~ isJavaScript toLowerCase p
        /\ ~ isTypeScript toLowerCase p /\ isOther toLowerCase p)).
  { intros p. pose proof (language_classes_disjoint p) as (Hpy & Hjs & Hts).
    destruct (languageIndex_cases p)
      as [[_ H0]|[[_ (N0 & H1)]|[[_ (N0 & N1 & H2)]|[_ H3]]]].
    - left. specialize (Hpy H0). tauto.
    - right; left. specialize (Hjs H1). tauto.
    - right; right; left. specialize (Hts H2). tauto.
    - right; right; right. unfold isOther in *. tauto. }
  assert (Hcounts : countLanguages toLowerCase paths
                    = languagesWith (length (filter (isPython toLowerCase) paths))
                        (length (filter (isJavaScript toLowerCase) paths))
                        (length (filter (isTypeScript toLowerCase) paths))
                        (length (filter (isOther toLowerCase) paths))).
  { unfold countLanguages.
    change languages0 with (languagesWith 0 0 0 0).
    by rewrite foldl_languages. }
  assert (Hsum : length (filter (isPython toLowerCase) paths)
                 + length (filter (isJavaScript toLowerCase) paths)
                 + length (filter (isTypeScript toLowerCase) paths)
                 + length (filter (isOther toLowerCase) paths) = length paths).
  { clear Hcounts. induction paths as [|p ps IH]; [done|].
    rewrite !filter_cons.
    destruct (Hclasses p) as [(?&?&?&?)|[(?&?&?&?)|[(?&?&?&?)|(?&?&?&?)]]].
    - rewrite (decide_True (P := isPython _ _)), !decide_False by done.
      simpl; lia.
    - rewrite (decide_True (P := isJavaScript _ _)), !decide_False by done.
      simpl; lia.
    - rewrite (decide_True (P := isTypeScript _ _)), !decide_False by done.
      simpl; lia.
    - rewrite (decide_True (P := isOther _ _)), !decide_False by done.
      simpl; lia. }
  assert (Hlen : length paths = size fileAnalyses).
  { unfold paths, keys. rewrite length_fmap. apply length_map_to_list. }
  split_and!.
  - exact Hclasses.
  - unfold result, calculateLanguageDistribution. fold paths.
    rewrite Hcounts. by case_decide.
  - unfold result, calculateLanguageDistribution. fold paths.
    rewrite Hcounts. by case_decide.
  - unfold result, calculateLanguageDistribution. fold paths.
    rewrite Hcounts, <- Hlen, <- Hsum. case_decide; simpl; lia.
  - unfold calculateLanguageDistribution, keys.
    rewrite map_to_list_empty. reflexivity.
Qed.

(** [afterLastDot] is what its name says: it has no "." in it, and the
    path is it, or ends with a "." followed by it. *)
Lemma afterLastDot_shape (p : jsstring) :
  (46%N ∉ afterLastDot p) /\
  (p = afterLastDot p \/ exists stem, p = stem ++ 46%N :: afterLastDot p).
Proof.
  induction p as [|c rest [IHfree IHshape]]; simpl.
  - split; [apply not_elem_of_nil | by left].
  - case_bool_decide as Hdot.
    + split; [done|]. right.
      destruct IHshape as [Hwhole|[stem Hstem]].
      * exfalso. apply IHfree. by rewrite <- Hwhole.
      * exists (c :: stem). simpl. by rewrite <- Hstem.
    + destruct (N.eqb_spec c 46) as [->|Hc].
      * split; [done|]. right. by exists [].
      * split; [by apply not_elem_of_cons | by left].
Qed.

(** The [ext] of the loop body is the extension in lower case. *)
Lemma extension_afterLastDot (p : jsstring) :
  extension toLowerCase p = Some (toLowerCase (afterLastDot p)).
Proof.
  destruct (afterLastDot_shape p) as [Hfree [Hwhole|[stem Hstem]]];
    unfold extension.
  - rewrite <- Hwhole in Hfree |- *. by rewrite split_without.
  - rewrite Hstem at 1.
    by rewrite split_at_separator, (split_without _ _ Hfree), last_snoc.
Qed.

Lemma language_classes_by_extension (p : jsstring) :
  (isPython toLowerCase p <-> pythonFile toLowerCase p) /\
  (isJavaScript toLowerCase p <-> javaScriptFile toLowerCase p) /\
  (isTypeScript toLowerCase p <-> typeScriptFile toLowerCase p) /\
  (isOther toLowerCase p <-> otherFile toLowerCase p).
Proof.
  unfold isOther, otherFile, isPython, isJavaScript, isTypeScript,
    pythonFile, javaScriptFile, typeScriptFile.
  rewrite extension_afterLastDot.
  assert (Hsome : forall e, Some (toLowerCase (afterLastDot p)) = Some e
                            <-> toLowerCase (afterLastDot p) = e).
  { intros e. split; [by intros [= ->] | by intros ->]. }
  rewrite !Hsome. tauto.
Qed.

(** C8: for every [file_analyses] mapping, [calculateLanguageDistribution]
    puts each file path in exactly one of the four buckets by its
    extension in lower case, the text after the last "." of the path (the
    whole path when it has no "."): Python for "py", JavaScript for "js",
    TypeScript for "ts" or "tsx", Other otherwise.  The four counts are
    the numbers of paths of each bucket and sum to the number of files,
    and on the empty mapping the four languages come back with count 0
    and percentage 0. *)
Theorem calculateLanguageDistribution_partition
    (fileAnalyses : gmap jsstring FileAnalysis.t) :
  let result := calculateLanguageDistribution toLowerCase roundedPercent fileAnalyses in
  let paths := keys fileAnalyses in
  (forall p : jsstring,
     (46%N ∉ afterLastDot p) /\
     (p = afterLastDot p \/ exists stem, p = stem ++ 46%N :: afterLastDot p)) /\
  (forall p : jsstring,
     (pythonFile toLowerCase p /\ ~ javaScriptFile toLowerCase p
        /\ ~ typeScriptFile toLowerCase p /\ ~ otherFile toLowerCase p) \/
     (~ pythonFile toLowerCase p /\ javaScriptFile toLowerCase p
        /\ ~ typeScriptFile toLowerCase p /\ ~ otherFile toLowerCase p) \/
     (~ pythonFile toLowerCase p /\ ~ javaScriptFile toLowerCase p
        /\ typeScriptFile toLowerCase p /\ ~ otherFile toLowerCase p) \/
     (~ pythonFile toLowerCase p /\ ~ javaScriptFile toLowerCase p
        /\ ~ typeScriptFile toLowerCase p /\ otherFile toLowerCase p)) /\
  name <$> result = [js "Python"; js "JavaScript"; js "TypeScript"; js "Other"] /\
  count <$> result = [ length (filter (pythonFile toLowerCase) paths);
                       length (filter (javaScriptFile toLowerCase) paths);
                       length (filter (typeScriptFile toLowerCase) paths);
                       length (filter (otherFile toLowerCase) paths) ] /\
  sum_list (count <$> result) = size fileAnalyses /\
  calculateLanguageDistribution toLowerCase roundedPercent ∅
  = [ {| name := js "Python"; color := js "#3572A5"; count := 0; percentage := 0 |};
      {| name := js "JavaScript"; color := js "#f1e05a"; count := 0; percentage := 0 |};
      {| name := js "TypeScript"; color := js "#2b7489"; count := 0; percentage := 0 |};
      {| name := js "Other"; color := js "#8e8e8e"; count := 0; percentage := 0 |} ].
Proof.
  intros result paths.
  destruct (calculateLanguageDistribution_by_ext fileAnalyses)
    as (Hclasses & Hnames & Hcounts & Hsum & Hempty).
  split_and!; [exact afterLastDot_shape | | exact Hnames | | exact Hsum
              | exact Hempty].
  - intros p.
    destruct (language_classes_by_extension p) as (Hpy & Hjs & Hts & Hother).
    rewrite <- Hpy, <- Hjs, <- Hts, <- Hother. apply Hclasses.
  - fold result paths in Hcounts. rewrite Hcounts.
    rewrite (list_filter_iff (pythonFile toLowerCase) (isPython toLowerCase)),
      (list_filter_iff (javaScriptFile toLowerCase) (isJavaScript toLowerCase)),
      (list_filter_iff (typeScriptFile toLowerCase) (isTypeScript toLowerCase)),
      (list_filter_iff (otherFile toLowerCase) (isOther toLowerCase));
      [done|intros p; symmetry; apply language_classes_by_extension..].
Qed.

Lemma alter_issuesWith (critical major minor : nat) :
  alter incrCount 0 (issuesWith critical major minor)
    = issuesWith (S critical) major minor /\
  alter incrCount 1 (issuesWith critical major minor)
    = issuesWith critical (S major) minor /\
  alter incrCount 2 (issuesWith critical major minor)
    = issuesWith critical major (S minor).
Proof. by split_and!. Qed.

(** A chunk is in exactly one severity class, and [countChunk] bumps the
    entry of that class. *)
Lemma countChunk_cases (chunk : ChunkAnalysis.t) (critical major minor : nat) :
  (isCritical chunk /\ ~ isMajor chunk /\ ~ isMinor chunk /\ ~ isClean chunk /\
   countChunk (issuesWith critical major minor) chunk
     = issuesWith (S critical) major minor) \/
  (~ isCritical chunk /\ isMajor chunk /\ ~ isMinor chunk /\ ~ isClean chunk /\
   countChunk (issuesWith critical major minor) chunk
     = issuesWith critical (S major) minor) \/
  (~ isCritical chunk /\ ~ isMajor chunk /\ isMinor chunk /\ ~ isClean chunk /\
   countChunk (issuesWith critical major minor) chunk
     = issuesWith critical major (S minor)) \/
  (~ isCritical chunk /\ ~ isMajor chunk /\ ~ isMinor chunk /\ isClean chunk /\
   countChunk (issuesWith critical major minor) chunk
     = issuesWith critical major minor).
Proof.
  pose proof (alter_issuesWith critical major minor) as (A0 & A1 & A2).
  unfold countChunk, isCritical, isMajor, isMinor, isClean.
  destruct (num_lt _ 5) eqn:E5;
    [apply num_lt_true in E5 | apply num_lt_false in E5].
  { left. rewrite A0. split_and!; first [done | lra]. }
  destruct (num_lt _ 7) eqn:E7;
    [apply num_lt_true in E7 | apply num_lt_false in E7].
  { right; left. rewrite A1. split_and!; first [done | lra]. }
  destruct (num_lt _ 9) eqn:E9;
    [apply num_lt_true in E9 | apply num_lt_false in E9].
  { right; right; left. rewrite A2. split_and!; first [done | lra]. }
  right; right; right. split_and!; first [done | lra].
Qed.

Lemma foldl_countChunk (chunks : list ChunkAnalysis.t) :
  forall critical major minor,
  foldl countChunk (issuesWith critical major minor) chunks
  = issuesWith (critical + length (filter isCritical chunks))
               (major + length (filter isMajor chunks))
               (minor + length (filter isMinor chunks)).
Proof.
  induction chunks as [|chunk chunks IH]; intros critical major minor.
  - simpl. by rewrite !Nat.add_0_r.
  - simpl foldl. rewrite !filter_cons.
    destruct (countChunk_cases chunk critical major minor)
      as [(?&?&?&?& ->)|[(?&?&?&?& ->)|[(?&?&?&?& ->)|(?&?&?&?& ->)]]];
      rewrite IH.
    + rewrite (decide_True (P := isCritical _)), !decide_False by done.
      simpl. f_equal; lia.
    + rewrite (decide_True (P := isMajor _)), !decide_False by done.
      simpl. f_equal; lia.
    + rewrite (decide_True (P := isMinor _)), !decide_False by done.
      simpl. f_equal; lia.
    + rewrite !decide_False by done. reflexivity.
Qed.

Lemma foldl_countIssues (analyses : list FileAnalysis.t) :
  forall critical major minor,
  foldl (fun issues analysis =>
           foldl countChunk issues (values (FileAnalysis.chunks analysis)))
        (issuesWith critical major minor) analyses
  = foldl countChunk (issuesWith critical major minor)
      (concat (map (fun analysis => values (FileAnalysis.chunks analysis))
                   analyses)).
Proof.
  induction analyses as [|analysis analyses IH]; intros critical major minor.
  - reflexivity.
  - simpl. rewrite foldl_app, foldl_countChunk. apply IH.
Qed.

Lemma severity_classes_cover (chunks : list ChunkAnalysis.t) :
  length (filter isCritical chunks) + length (filter isMajor chunks)
  + length (filter isMinor chunks) + length (filter isClean chunks)
  = length chunks.
Proof.
  induction chunks as [|chunk chunks IH]; [done|].
  rewrite !filter_cons.
  destruct (countChunk_cases chunk 0 0 0)
    as [(?&?&?&?&_)|[(?&?&?&?&_)|[(?&?&?&?&_)|(?&?&?&?&_)]]].
  - rewrite (decide_True (P := isCritical _)), !decide_False by done.
    simpl; lia.
  - rewrite (decide_True (P := isMajor _)), !decide_False by done.
    simpl; lia.
  - rewrite (decide_True (P := isMinor _)), !decide_False by done.
    simpl; lia.
  - rewrite (decide_True (P := isClean _)), !decide_False by done.
    simpl; lia.
Qed.

(** C9: for every [file_analyses] mapping, [calculateIssuesBySeverity]
    counts each chunk with quality_score < 5 as Critical, with
    5 <= quality_score < 7 as Major, with 7 <= quality_score < 9 as Minor
    and a chunk with quality_score >= 9 in no bucket (the three counts and
    the number of such chunks add up to the number of chunks); when the
    total issue count is zero the three buckets come back with count 0
    and percentage 0. *)
Theorem calculateIssuesBySeverity_counts
    (fileAnalyses : gmap jsstring FileAnalysis.t) :
  let result := calculateIssuesBySeverity roundedPercent fileAnalyses in
  let chunks := chunksOf fileAnalyses in
  name <$> result = [js "Critical"; js "Major"; js "Minor"] /\
  count <$> result = [ length (filter isCritical chunks);
                       length (filter isMajor chunks);
                       length (filter isMinor chunks) ] /\
  sum_list (count <$> result) + length (filter isClean chunks) = length chunks /\
  (sum_list (count <$> result) = 0 ->
   result
   = [ {| name := js "Critical"; color := js "#ef4444"; count := 0; percentage := 0 |};
       {| name := js "Major"; color := js "#f97316"; count := 0; percentage := 0 |};
       {| name := js "Minor"; color := js "#eab308"; count := 0; percentage := 0 |} ]).
Proof.
  intros result chunks.
  assert (Hcounts : countIssues (values fileAnalyses)
                    = issuesWith (length (filter isCritical chunks))
                                 (length (filter isMajor chunks))
                                 (length (filter isMinor chunks))).
  { unfold countIssues. change issues0 with (issuesWith 0 0 0).
    by rewrite foldl_countIssues, foldl_countChunk. }
  pose proof (severity_classes_cover chunks) as Hcover.
  assert (Hresult : count <$> result
                    = [ length (filter isCritical chunks);
                        length (filter isMajor chunks);
                        length (filter isMinor chunks) ]).
  { unfold result, calculateIssuesBySeverity. rewrite Hcounts.
    by case_decide. }
  split_and!.
  - unfold result, calculateIssuesBySeverity. rewrite Hcounts. by case_decide.
  - exact Hresult.
  - rewrite Hresult. simpl. lia.
  - rewrite Hresult. simpl. intros Hzero.
    unfold result, calculateIssuesBySeverity. rewrite Hcounts.
    assert (length (filter isCritical chunks) = 0) as -> by lia.
    assert (length (filter isMajor chunks) = 0) as -> by lia.
    assert (length (filter isMinor chunks) = 0) as -> by lia.
    reflexivity.
Qed.

End AnalyticsFacts.

Example calculateLanguageDistribution_demo :
  calculateLanguageDistribution asciiLower exactPercent demoAnalyses
  = [ {| name := js "Python"; color := js "#3572A5"; count := 1; percentage := 25 |};
      {| name := js "JavaScript"; color := js "#f1e05a"; count := 1; percentage := 25 |};
      {| name := js "TypeScript"; color := js "#2b7489"; count := 1; percentage := 25 |};
      {| name := js "Other"; color := js "#8e8e8e"; count := 1; percentage := 25 |} ].
Proof. vm_compute. reflexivity. Qed.

Example calculateIssuesBySeverity_demo :
  calculateIssuesBySeverity exactPercent demoAnalyses
  = [ {| name := js "Critical"; color := js "#ef4444"; count := 1; percentage := 33 |};
      {| name := js "Major"; color := js "#f97316"; count := 1; percentage := 33 |};
      {| name := js "Minor"; color := js "#eab308"; count := 1; percentage := 33 |} ].
Proof. vm_compute. reflexivity. Qed.

Lemma calculateIssuesBySeverity_counts_witness :
  calculateIssuesBySeverity exactPercent cleanAnalyses
  = [ {| name := js "Critical"; color := js "#ef4444"; count := 0; percentage := 0 |};
      {| name := js "Major"; color := js "#f97316"; count := 0; percentage := 0 |};
      {| name := js "Minor"; color := js "#eab308"; count := 0; percentage := 0 |} ].
Proof.
  pose proof (calculateIssuesBySeverity_counts exactPercent cleanAnalyses) as H.
  cbv zeta in H. destruct H as (_ & _ & _ & H).
  apply H. vm_compute. reflexivity.
Defined.

(** ** Repository sidebar *)

(** C3: the two versions of [fetchRepositories] both send one GET to
    /api/repositories for a token; the first carries the token in an
    [Authorization: Bearer <token>] header and no [GitHub-Token] header,
    the second in a [GitHub-Token] header and no [Authorization] header,
    and the token string that travels is the same. *)
Theorem token_transport_differs
    (env1 env2 : option jsstring) (c : N) (t : jsstring)
    (r1 r2 : FetchResult) (st1 st2 : RepositorySidebar.State) :
  let githubToken := c :: t in
  let bearer := RepositorySidebar.V1.request env1 githubToken in
  let custom := RepositorySidebar.V2.request env2 githubToken in
  fetches (RepositorySidebar.V1.fetchRepositories env1 (Some githubToken) r1 st1).2
    = [bearer] /\
  fetches (RepositorySidebar.V2.fetchRepositories env2 (Some githubToken) r2 st2).2
    = [custom] /\
  method bearer = js "GET" /\ method custom = js "GET" /\
  url bearer = backendUrl env1 ++ js "/api/repositories" /\
  url custom = backendUrl env2 ++ js "/api/repositories" /\
  header (js "Authorization") bearer = Some (js "Bearer " ++ githubToken) /\
  header (js "GitHub-Token") bearer = None /\
  header (js "GitHub-Token") custom = Some githubToken /\
  header (js "Authorization") custom = None /\
  bearerToken bearer = header (js "GitHub-Token") custom.
Proof.
  intros githubToken bearer custom.
  split_and!; try reflexivity.
  - unfold RepositorySidebar.V1.fetchRepositories. fold githubToken.
    destruct (RepositorySidebar.finish _ st1) as [st' effects] eqn:E.
    unfold RepositorySidebar.finish in E.
    destruct (RepositorySidebar.V1.tryBlock r1); inversion E; reflexivity.
  - unfold RepositorySidebar.V2.fetchRepositories. fold githubToken.
    destruct (RepositorySidebar.finish _ st2) as [st' effects] eqn:E.
    unfold RepositorySidebar.finish in E.
    destruct (RepositorySidebar.V2.tryBlock r2); inversion E; reflexivity.
Qed.

Lemma lookupProp_setProp (k k' : jsstring) (v : value)
    (props : list (jsstring * value)) :
  lookupProp k (setProp k' v props)
  = if decide (k = k') then v else lookupProp k props.
Proof.
  induction props as [|[k0 v0] props IH]; simpl.
  - repeat case_decide; congruence.
  - repeat (case_decide; simpl; subst); try congruence.
Qed.

Lemma mapM_Forall2 {A B} (f : A -> completion B) (R : A -> B -> Prop)
    (l : list A) :
  Forall (fun a => exists b, f a = Normal b /\ R a b) l ->
  exists bs, mapM f l = Normal bs /\ Forall2 R l bs.
Proof.
  induction 1 as [|a l (b & Hb & HR) _ (bs & Hbs & HF)].
  - exists []. by split.
  - exists (b :: bs). simpl. rewrite Hb. simpl. rewrite Hbs. simpl.
    split; [done | by constructor].
Qed.

Lemma splitHead_string (s : jsstring) :
  splitHead (VStr s) = Normal (VStr (beforeSlash s)).
Proof.
  unfold splitHead, beforeSlash.
  pose proof (split_nonempty 47 s). by destruct (split 47 s).
Qed.

Lemma formatBare_spec (repo : value) :
  hasFullName repo ->
  exists formatted,
    RepositorySidebar.formatBare repo = Normal formatted
    /\ bareFormatOf repo formatted.
Proof.
  intros [s Hs]. destruct repo; try discriminate. simpl in Hs.
  eexists. split.
  - unfold RepositorySidebar.formatBare. simpl get. rewrite Hs.
    cbn [mbind completion_bind]. rewrite splitHead_string. reflexivity.
  - exists s. split; [exact Hs | reflexivity].
Qed.

Lemma formatSpread_spec (repo : value) :
  readable repo ->
  exists formatted,
    RepositorySidebar.formatSpread repo = Normal formatted
    /\ spreadFormatOf repo formatted.
Proof.
  intros [Hnull Hundef].
  assert (Hget : forall k, get repo k = Normal (prop k repo))
    by (intros k; destruct repo; done).
  eexists. split.
  - unfold RepositorySidebar.formatSpread. rewrite !Hget. simpl. reflexivity.
  - eexists. split; [reflexivity|].
    intros k. rewrite !lookupProp_setProp.
    repeat case_decide; subst; try done.
Qed.

(** Two different literals cannot be equal. *)
Ltac literal_clash :=
  match goal with
  | H : js _ = js _ |- _ => vm_compute in H; discriminate H
  end.

Lemma formatWrapped_array (props : list (jsstring * value)) (items : list value) :
  lookupProp (js "repositories") props = VArr items ->
  RepositorySidebar.formatWrapped (VObj props)
  = mapM RepositorySidebar.formatSpread items.
Proof.
  intros H. unfold RepositorySidebar.formatWrapped. simpl get.
  cbn [mbind completion_bind]. by rewrite H.
Qed.

Lemma formatWrapped_other (data : value) :
  readable data -> otherShape data ->
  RepositorySidebar.formatWrapped data
  = Throw (Error (js "Invalid response format")).
Proof.
  intros [Hnull Hundef] [_ Hother].
  unfold RepositorySidebar.formatWrapped.
  destruct data as [| |b|q|s|items|props]; try done.
  simpl get. cbn [mbind completion_bind].
  specialize (Hother props).
  destruct (lookupProp (js "repositories") props) as [| |b|q|s|items|props'];
    simpl; try done.
  - by destruct b.
  - by destruct (negb (Qeq_bool q 0)).
  - by destruct s.
  - by specialize (Hother items eq_refl).
Qed.

(** C2, as the code has it: the second version of [fetchRepositories]
    accepts a bare array whose elements carry a string [full_name], and
    an object whose [repositories] field is an array of elements that are
    neither null nor undefined.  The bare shape rebuilds each entry from
    [full_name], [name], [branches] and [lastActive] and sets [owner] to
    the part of [full_name] before the first "/"; the wrapped shape keeps
    the element's own properties, [owner] included.  Both fill a falsy
    [branches] with ["main"] and a falsy [lastActive] with "Recently
    updated", so the two agree on [full_name], [name], [branches] and
    [lastActive].  Any other shape that is not null raises "Invalid
    response format", and every rejected body leaves both lists empty
    with the error "Failed to load repositories". *)
Theorem fetchRepositories_shapes
    (env : option jsstring) (c : N) (t : jsstring) (data : value)
    (st : RepositorySidebar.State) :
  let outcome :=
    RepositorySidebar.V2.fetchRepositories env (Some (c :: t)) (Json data) st in
  let after := outcome.1 in
  let shown := toasts outcome.2 in
  (forall items, data = VArr items -> Forall hasFullName items ->
     Forall2 bareFormatOf items (RepositorySidebar.repositories after) /\
     RepositorySidebar.filteredRepos after = RepositorySidebar.repositories after /\
     RepositorySidebar.error after = None /\ shown = []) /\
  (forall props items, data = VObj props ->
     lookupProp (js "repositories") props = VArr items -> Forall readable items ->
     Forall2 spreadFormatOf items (RepositorySidebar.repositories after) /\
     RepositorySidebar.filteredRepos after = RepositorySidebar.repositories after /\
     RepositorySidebar.error after = None /\ shown = []) /\
  (forall repo bare wrapped, bareFormatOf repo bare -> spreadFormatOf repo wrapped ->
     prop (js "full_name") bare = prop (js "full_name") wrapped /\
     prop (js "name") bare = prop (js "name") wrapped /\
     prop (js "branches") bare = prop (js "branches") wrapped /\
     prop (js "lastActive") bare = prop (js "lastActive") wrapped /\
     prop (js "owner") wrapped = prop (js "owner") repo /\
     exists s, prop (js "full_name") repo = VStr s
               /\ prop (js "owner") bare = VStr (beforeSlash s)) /\
  (readable data -> otherShape data ->
     description <$> shown = [Text (js "Invalid response format")]) /\
  (forall e, RepositorySidebar.V2.tryBlock (Json data) = Throw e ->
     RepositorySidebar.repositories after = [] /\
     RepositorySidebar.filteredRepos after = [] /\
     RepositorySidebar.error after = Some (js "Failed to load repositories")).
Proof.
  intros outcome after shown.
  assert (Hout : outcome
                 = let (st', effects) :=
                     RepositorySidebar.finish
                       (RepositorySidebar.V2.tryBlock (Json data)) st in
                   (st', Fetch (RepositorySidebar.V2.request env (c :: t)) :: effects))
    by reflexivity.
  split_and!.
  - intros items -> Hitems.
    destruct (mapM_Forall2 RepositorySidebar.formatBare bareFormatOf items)
      as (bs & Hbs & HF).
    { eapply Forall_impl; [exact Hitems|]. apply formatBare_spec. }
    unfold after, shown. rewrite Hout. simpl RepositorySidebar.V2.tryBlock.
    rewrite Hbs. simpl. done.
  - intros props items -> Hrepos Hitems.
    destruct (mapM_Forall2 RepositorySidebar.formatSpread spreadFormatOf items)
      as (bs & Hbs & HF).
    { eapply Forall_impl; [exact Hitems|]. apply formatSpread_spec. }
    unfold after, shown. rewrite Hout. simpl RepositorySidebar.V2.tryBlock.
    rewrite (formatWrapped_array _ _ Hrepos), Hbs. simpl. done.
  - intros repo bare wrapped (s & Hs & ->) (props & -> & Hprops).
    destruct repo as [| |b|q|s'|items|rprops]; try discriminate.
    simpl in Hs. simpl prop. rewrite !Hprops. simpl ownProps.
    split_and!; try rewrite Hs; repeat case_decide; try done;
      try (exfalso; literal_clash).
    exists s. by split.
  - intros Hreadable Hother.
    unfold shown. rewrite Hout.
    assert (RepositorySidebar.V2.tryBlock (Json data)
            = Throw (Error (js "Invalid response format"))) as ->.
    { destruct Hother as [Harr Hobj].
      destruct data; try discriminate;
        apply formatWrapped_other; done. }
    reflexivity.
  - intros e He. unfold after. rewrite Hout, He. simpl. done.
Qed.

Lemma fetchRepositories_shapes_witness :
  Forall2 bareFormatOf [demoRepo]
    (RepositorySidebar.repositories
       (RepositorySidebar.V2.fetchRepositories None (Some (js "t"))
          (Json (VArr [demoRepo])) RepositorySidebar.initial).1) /\
  Forall2 spreadFormatOf [demoRepo]
    (RepositorySidebar.repositories
       (RepositorySidebar.V2.fetchRepositories None (Some (js "t"))
          (Json (VObj [(js "repositories", VArr [demoRepo])]))
          RepositorySidebar.initial).1) /\
  description <$>
    toasts (RepositorySidebar.V2.fetchRepositories None (Some (js "t"))
              (Json (VStr (js "oops"))) RepositorySidebar.initial).2
  = [Text (js "Invalid response format")] /\
  RepositorySidebar.repositories
    (RepositorySidebar.V2.fetchRepositories None (Some (js "t"))
       (Json VNull) RepositorySidebar.initial).1 = [].
Proof.
  split_and!.
  - pose proof (fetchRepositories_shapes None 116 [] (VArr [demoRepo])
                  RepositorySidebar.initial) as H.
    cbv zeta in H. destruct H as (H & _).
    apply (H [demoRepo] eq_refl).
    constructor; [|constructor]. exists (js "octo/demo"). reflexivity.
  - pose proof (fetchRepositories_shapes None 116 []
                  (VObj [(js "repositories", VArr [demoRepo])])
                  RepositorySidebar.initial) as H.
    cbv zeta in H. destruct H as (_ & H & _).
    apply (H _ [demoRepo] eq_refl eq_refl).
    constructor; [|constructor]. split; discriminate.
  - pose proof (fetchRepositories_shapes None 116 [] (VStr (js "oops"))
                  RepositorySidebar.initial) as H.
    cbv zeta in H. destruct H as (_ & _ & _ & H & _).
    apply H.
    + split; discriminate.
    + split; [reflexivity | discriminate].
  - pose proof (fetchRepositories_shapes None 116 [] VNull
                  RepositorySidebar.initial) as H.
    cbv zeta in H. destruct H as (_ & _ & _ & _ & H).
    apply (H TypeError eq_refl).
Defined.

(** C2 as the spec words it fails twice.  The same repository, once in a
    bare array and once under [repositories], is not normalised to the
    same entry: the bare shape derives the owner "octo" from the full
    name, the wrapped shape has no owner.  And the body [null], which is
    neither shape, does not raise "Invalid response format": reading
    [data.repositories] throws a TypeError first. *)
Lemma fetchRepositories_shapes_disagree :
  let bare :=
    RepositorySidebar.V2.fetchRepositories None (Some (js "t"))
      (Json (VArr [demoRepo])) RepositorySidebar.initial in
  let wrapped :=
    RepositorySidebar.V2.fetchRepositories None (Some (js "t"))
      (Json (VObj [(js "repositories", VArr [demoRepo])]))
      RepositorySidebar.initial in
  let null :=
    RepositorySidebar.V2.fetchRepositories None (Some (js "t"))
      (Json VNull) RepositorySidebar.initial in
  prop (js "owner") <$> RepositorySidebar.repositories bare.1
    = [VStr (js "octo")] /\
  prop (js "owner") <$> RepositorySidebar.repositories wrapped.1
    = [VUndefined] /\
  RepositorySidebar.repositories bare.1
    <> RepositorySidebar.repositories wrapped.1 /\
  otherShape VNull /\
  description <$> toasts null.2 = [EngineMessage TypeError] /\
  description <$> toasts null.2 <> [Text (js "Invalid response format")].
Proof.
  split_and!; try reflexivity; try discriminate.
  split; [reflexivity | discriminate].
Qed.

(** ** Chat interface *)

Lemma trimStart_empty (s : jsstring) :
  trimStart s = [] <-> forallb isWhiteSpace s = true.
Proof.
  induction s as [|c s IH]; simpl; [done|].
  destruct (isWhiteSpace c); simpl; [exact IH | split; discriminate].
Qed.

(** The trim of a string is empty exactly when the string is made of
    white space only. *)
Lemma trim_empty (s : jsstring) :
  trim s = [] <-> forallb isWhiteSpace s = true.
Proof.
  unfold trim. rewrite <- trimStart_empty. split.
  - intros H. apply (f_equal (@rev N)) in H. rewrite rev_involutive in H.
    simpl in H. apply trimStart_empty in H.
    rewrite forallb_forall in H.
    destruct (trimStart s) as [|c t] eqn:E; [done|].
    assert (Hc : isWhiteSpace c = true).
    { apply H, in_rev. rewrite rev_involutive. by left. }
    clear H. induction s as [|d s IH]; [done|].
    simpl in E. destruct (isWhiteSpace d) eqn:Ed; [by apply IH|].
    injection E as -> ->. congruence.
  - by intros ->.
Qed.

(** C4, as the code has it: a call of [handleSendMessage] with an input
    whose trim is empty (by [trim_empty], an input that is empty or made
    of white space only) returns at once and in silence: no request, no
    toast or other report of an error, and the message list, the
    conversation id, the loading flag and the input are as before; in a
    run of the component the event leaves everything as it was. *)
Theorem handleSendMessage_blank_input
    (env : option jsstring) (p : ChatInterface.Props)
    (clk clk' : ChatInterface.Clock) (o : ChatInterface.Outcome)
    (st : ChatInterface.State) (c : ChatInterface.Component) :
  trim (ChatInterface.input st) = [] ->
  ChatInterface.handleSendMessage env p clk clk' o st = (st, []) /\
  (ChatInterface.state c = st ->
   let c' := ChatInterface.step env c (ChatInterface.Submit clk) in
   ChatInterface.state c' = st /\
   ChatInterface.inflight c' = ChatInterface.inflight c /\
   ChatInterface.effects c' = ChatInterface.effects c /\
   ChatInterface.log c' = ChatInterface.log c).
Proof.
  intros Hblank.
  assert (Hstart : forall p', ChatInterface.start env p' clk st
                              = ChatInterface.Returned []).
  { intros p'. unfold ChatInterface.start. by rewrite Hblank. }
  split.
  - unfold ChatInterface.handleSendMessage. by rewrite Hstart.
  - intros <-. simpl. rewrite Hstart. simpl. by rewrite app_nil_r.
Qed.

Lemma handleSendMessage_blank_input_witness :
  let st := ChatInterface.setInput [32; 9; 160]%N demoChat in
  ChatInterface.handleSendMessage None demoProps (clockAt 2000) (clockAt 3000)
    (ChatInterface.HttpError (js "Internal Server Error")) st = (st, []).
Proof.
  intros st.
  apply (handleSendMessage_blank_input None demoProps (clockAt 2000)
           (clockAt 3000) (ChatInterface.HttpError (js "Internal Server Error")) st
           ChatInterface.mount).
  reflexivity.
Defined.

(** C4 as the spec words it fails: a submission that is white space only
    is not rejected with a validation error.  The handler returns with
    no effect at all, so no toast reports anything, and no error message
    is added to the list; and the orchestrator as the spec describes it
    turns down the empty question only: a question of two spaces is
    answered and opens a conversation in the store. *)
Lemma handleSendMessage_blank_input_is_silent :
  let st := ChatInterface.setInput [32; 9; 160]%N demoChat in
  let out :=
    ChatInterface.handleSendMessage None demoProps (clockAt 2000) (clockAt 3000)
      (ChatInterface.HttpError (js "Internal Server Error")) st in
  let served :=
    ConversationStore.chat ConversationStore.firstUnused (demoCall "  ")
      ConversationStore.empty in
  trim (ChatInterface.input st) = [] /\
  out.2 = [] /\
  toasts out.2 = [] /\
  ChatInterface.messages out.1 = ChatInterface.messages demoChat /\
  trim (ConversationStore.question (demoCall "  ")) = [] /\
  served.2 <> inl ConversationStore.ValidationError /\
  (exists reply, served.2 = inr reply) /\
  size (ConversationStore.conversations served.1) = 1.
Proof.
  split_and!; try reflexivity.
  - discriminate.
  - by eexists.
Qed.

(** C1, as the code has it: when the request of [handleSendMessage]
    fails (the fetch rejects, the status is not 2xx, or the body is not
    JSON), the handler appends to the user's question one message of its
    own making, of role assistant and with a fixed text; nothing the
    agent produced is shown, the conversation id is unchanged, the
    loading flag is cleared, and one toast reports the error. *)
Theorem handleSendMessage_failure
    (env : option jsstring) (p : ChatInterface.Props)
    (clk clk' : ChatInterface.Clock) (o : ChatInterface.Outcome)
    (st st1 : ChatInterface.State) (r : Request) (e : thrown) :
  ChatInterface.start env p clk st = ChatInterface.Awaiting st1 r ->
  ChatInterface.received o = Throw e ->
  let outcome := ChatInterface.handleSendMessage env p clk clk' o st in
  ChatInterface.messages outcome.1
    = ChatInterface.messages st ++ [userMessageOf clk st; errorMessageOf clk'] /\
  ChatInterface.conversationId outcome.1 = ChatInterface.conversationId st /\
  ChatInterface.isLoading outcome.1 = false /\
  ChatInterface.input outcome.1 = [] /\
  outcome.2 = [ Fetch r;
                ShowToast {| title := js "Chat error";
                             description := messageOf e;
                             variant := js "destructive" |} ].
Proof.
  intros Hstart Hfail outcome.
  unfold outcome, ChatInterface.handleSendMessage. rewrite Hstart.
  unfold ChatInterface.settle. rewrite Hfail.
  unfold ChatInterface.start in Hstart.
  destruct (trim (ChatInterface.input st)); [done|].
  destruct (ChatInterface.selectedRepo p) as [[|? ?]|]; try done.
  destruct (ChatInterface.githubToken p) as [[|? ?]|]; try done.
  inversion Hstart; subst. simpl.
  by rewrite <- app_assoc.
Qed.

Lemma handleSendMessage_failure_witness :
  let outcome :=
    ChatInterface.handleSendMessage None demoProps (clockAt 2000) (clockAt 3000)
      (ChatInterface.HttpError (js "Internal Server Error")) demoChat in
  ChatInterface.messages outcome.1
    = ChatInterface.messages demoChat
      ++ [userMessageOf (clockAt 2000) demoChat; errorMessageOf (clockAt 3000)] /\
  ChatInterface.conversationId outcome.1 = Some (js "c1").
Proof.
  intros outcome.
  destruct (handleSendMessage_failure None demoProps (clockAt 2000)
              (clockAt 3000) (ChatInterface.HttpError (js "Internal Server Error"))
              demoChat _ _ _ eq_refl eq_refl) as (Hm & Hc & _).
  split; [exact Hm | exact Hc].
Defined.

(** C1 as the spec words it fails: after a failed request the displayed
    sequence does not end with the user's question but with a message of
    role assistant. *)
Lemma handleSendMessage_failure_ends_with_assistant :
  let after :=
    (ChatInterface.handleSendMessage None demoProps (clockAt 2000) (clockAt 3000)
       (ChatInterface.HttpError (js "Internal Server Error")) demoChat).1 in
  last (ChatInterface.messages after) <> Some (userMessageOf (clockAt 2000) demoChat) /\
  ChatInterface.role <$> last (ChatInterface.messages after) = Some assistant /\
  ChatInterface.content <$> last (ChatInterface.messages after)
    = Some (js "Sorry, there was an error processing your request. Please try again later.").
Proof.
  split_and!; [discriminate | reflexivity | reflexivity].
Qed.

Section AtomicRuns.
Import ChatInterface.
Variable env : option jsstring.

Lemma idsKeepRepository_snoc (todo : list LogEntry) :
  forall (seen : list LogEntry) (entry : LogEntry),
  idsKeepRepository seen (todo ++ [entry])
  = (idsKeepRepository seen todo && entryOk (seen ++ todo) entry)%bool.
Proof.
  induction todo as [|e todo IH]; intros seen entry; simpl.
  - by rewrite app_nil_r, andb_true_r.
  - by rewrite IH, <- app_assoc, andb_assoc.
Qed.

Lemma issuedFor_app (cid repo : jsstring) (l1 l2 : list LogEntry) :
  issuedFor cid repo (l1 ++ l2)
  = (issuedFor cid repo l1 || issuedFor cid repo l2)%bool.
Proof. apply existsb_app. Qed.

Lemma start_request (p : Props) (clk : Clock) (st st1 : State) (r : Request) :
  start env p clk st = Awaiting st1 r ->
  (exists repo, selectedRepo p = Some repo /\ repositoryOf r = Some repo) /\
  conversationOf r = conversationId st /\
  conversationId st1 = conversationId st.
Proof.
  unfold start.
  destruct (trim (input st)); [done|].
  destruct (selectedRepo p) as [[|? ?]|]; try done.
  destruct (githubToken p) as [[|? ?]|]; try done.
  intros [= <- <-]. split_and!; [|done..]. by eexists.
Qed.

Lemma settle_conversationId (clk : Clock) (o : Outcome) (st : State) :
  conversationId (settle clk o st).1 = conversationId st \/
  exists data cid, o = Answer data /\ conversation_id data = Some cid
                   /\ conversationId (settle clk o st).1 = Some cid.
Proof.
  unfold settle. destruct o as [| | |data]; simpl; try by left.
  destruct (conversation_id data) as [[|c cid]|] eqn:E; simpl; try by left.
  right. by exists data, (c :: cid).
Qed.

Lemma settled_step (c : Component) (a : Action) :
  settled c -> settled (foldl (step env) c (expand a)).
Proof.
  intros (Hin & Hlog & Hcid). destruct a as [repo now|token|s|clk clk' o]; simpl.
  - split_and!; try done. simpl. intros cid.
    case_decide as Hrepo; [subst; apply Hcid|].
    unfold onSelectedRepo. by destruct repo as [[|? ?]|].
  - by split_and!.
  - by split_and!.
  - destruct (start env (props c) clk (state c)) as [effs|st1 r] eqn:Hstart; simpl.
    + rewrite Hin. simpl. by split_and!.
    + rewrite Hin. simpl.
      apply start_request in Hstart as ((repo & Hsel & Hrepo) & Hconv & Hkeep).
      destruct (settle clk' o st1) as [st2 effs] eqn:Hsettle. simpl.
      assert (Hsent : entryOk (log c) (Sent r) = true).
      { simpl. rewrite Hconv, Hrepo.
        destruct (conversationId (state c)) as [cid|] eqn:E; [|done].
        destruct (Hcid cid eq_refl) as (repo' & Hsel' & Hissued).
        by replace repo with repo' by congruence. }
      split_and!; [done| |].
      * cbn [log]. unfold answeredEntry.
        destruct o; rewrite ?app_nil_r, !idsKeepRepository_snoc;
          rewrite ?app_nil_l, Hlog, Hsent; done.
      * intros cid Hst2. cbn [state props log] in *.
        pose proof (settle_conversationId clk' o st1) as Hcases.
        rewrite Hsettle in Hcases. simpl in Hcases.
        destruct Hcases as [Hsame|(data & cid' & -> & Hdata & Hnew)].
        -- rewrite Hsame, Hkeep in Hst2.
           destruct (Hcid cid Hst2) as (repo' & Hsel' & Hissued).
           exists repo'. split; [done|].
           rewrite !issuedFor_app, Hissued. done.
        -- rewrite Hnew in Hst2. injection Hst2 as ->.
           exists repo. split; [done|].
           rewrite !issuedFor_app. simpl.
           rewrite Hdata, Hrepo.
           rewrite bool_decide_eq_true_2 by (split; reflexivity).
           by rewrite !orb_true_r.
Qed.

(** X19: What the interface does guarantee: when no event comes between a
    request and its answer, a request that carries a conversation id
    names the repository for which that id was issued. *)
Lemma atomic_runs_keep_repository (actions : list Action) :
  idsKeepRepository [] (log (run env (actions ≫= expand))) = true.
Proof.
  assert (Hrun : forall c, settled c ->
                   settled (foldl (step env) c (actions ≫= expand))).
  { induction actions as [|a actions IH]; intros c Hc; [done|].
    simpl. rewrite foldl_app. apply IH, settled_step, Hc. }
  apply (Hrun mount). by split_and!.
Qed.
End AtomicRuns.

(** C5 on the code: in the run [staleAnswer] the answer to a question
    about octo/a arrives after octo/b was selected; its conversation id
    is stored, and the next request names octo/b with the id that was
    issued for octo/a. *)
Theorem stale_answer_crosses_repositories :
  let c := ChatInterface.run None staleAnswer in
  ChatInterface.selectedRepo (ChatInterface.props c) = Some (js "octo/b") /\
  (exists r1 data r2,
     ChatInterface.log c
       = [ChatInterface.Sent r1; ChatInterface.Answered r1 data;
          ChatInterface.Sent r2] /\
     ChatInterface.repositoryOf r1 = Some (js "octo/a") /\
     ChatInterface.conversationOf r1 = None /\
     ChatInterface.conversation_id data = Some (js "c1") /\
     ChatInterface.repositoryOf r2 = Some (js "octo/b") /\
     ChatInterface.conversationOf r2 = Some (js "c1")) /\
  ChatInterface.issuedFor (js "c1") (js "octo/b") (ChatInterface.log c) = false /\
  ChatInterface.idsKeepRepository [] (ChatInterface.log c) = false.
Proof.
  split_and!; try reflexivity.
  do 3 eexists. split_and!; reflexivity.
Qed.

(** ** Conversation store *)

Section StoreFacts.
Import ConversationStore.
Variable newId : Store -> jsstring.
Hypothesis newId_fresh : forall s, conversations s !! newId s = None.

(** The empty question is turned down before the store is touched. *)
Lemma chat_rejects_empty_question (c : Call) (s : Store) :
  question c = [] -> chat newId c s = (s, inl ValidationError).
Proof. intros H. unfold chat. by rewrite H. Qed.

(** When the agent fails, the call ends in an error and the last turn of
    the conversation is the user's question. *)
Lemma chat_agent_failure (c : Call) (s s1 s2 : Store) (cid : jsstring) :
  question c <> [] ->
  resolve newId c s = (cid, s1) ->
  append cid {| role := user; content := question c; timestamp := now c |} s1
    = Some s2 ->
  (forall a, ask c (call_repository c) (history cid s2) <> Replied a) ->
  (chat newId c s).1 = s2 /\
  (exists e, (chat newId c s).2 = inl e) /\
  exists conv, conversations s2 !! cid = Some conv /\
    last (messages conv)
    = Some {| role := user; content := question c; timestamp := now c |}.
Proof.
  intros Hq Hresolve Happend Hfail. unfold chat.
  destruct (question c) as [|q0 q] eqn:Eq; [done|].
  rewrite Hresolve, Happend.
  split_and!.
  - by destruct (ask c _ _) as [a| | |]; [destruct (Hfail a eq_refl)|..].
  - destruct (ask c _ _) as [a| | |]; [destruct (Hfail a eq_refl)|..];
      by eexists.
  - unfold append in Happend.
    destruct (conversations s1 !! cid) as [conv|]; [|done].
    injection Happend as <-. simpl. eexists. split.
    + apply lookup_insert_eq.
    + simpl. apply last_snoc.
Qed.

Lemma create_dom (repo : jsstring) (s : Store) :
  dom (conversations (create newId repo s).2)
  = {[ newId s ]} ∪ dom (conversations s).
Proof. unfold create. simpl. apply dom_insert_L. Qed.

Lemma append_dom (cid : jsstring) (m : Message) (s s' : Store) :
  append cid m s = Some s' ->
  dom (conversations s') = dom (conversations s) /\ cid ∈ dom (conversations s).
Proof.
  unfold append. destruct (conversations s !! cid) as [c|] eqn:E; [|done].
  intros [= <-]. simpl.
  split; [apply dom_insert_lookup_L | apply elem_of_dom]; eauto.
Qed.

Lemma resolve_dom (c : Call) (s : Store) :
  dom (conversations s) ⊆ dom (conversations (resolve newId c s).2) /\
  (call_conversationId c = None ->
   (resolve newId c s).1 ∉ dom (conversations s)).
Proof.
  unfold resolve.
  assert (Hnew : newId s ∉ dom (conversations s)).
  { rewrite elem_of_dom, newId_fresh. by intros [? ?]. }
  assert (Hcreate : dom (conversations s)
                    ⊆ dom (conversations (create newId (call_repository c) s).2)).
  { rewrite create_dom. apply union_subseteq_r. }
  destruct (call_conversationId c) as [cid|].
  - destruct (conversations s !! cid); simpl; by split.
  - by split.
Qed.

(** A call never removes a conversation; the id it returns is registered
    afterwards, and it is a new one when the call names no conversation. *)
Lemma chat_dom (c : Call) (s : Store) :
  dom (conversations s) ⊆ dom (conversations (chat newId c s).1) /\
  forall reply, (chat newId c s).2 = inr reply ->
    conversationId reply ∈ dom (conversations (chat newId c s).1) /\
    (call_conversationId c = None ->
     conversationId reply ∉ dom (conversations s)).
Proof.
  unfold chat. destruct (question c) as [|q0 q]; [by split|].
  pose proof (resolve_dom c s) as [Hsub Hfresh].
  destruct (resolve newId c s) as [cid s1]. simpl in Hsub, Hfresh.
  destruct (append cid _ s1) as [s2|] eqn:E2; [|by split].
  apply append_dom in E2 as [Hd2 Hin]. rewrite <- Hd2 in Hsub, Hin.
  destruct (ask c _ _) as [a| | |]; simpl; try (by split).
  destruct (append cid _ s2) as [s3|] eqn:E3; simpl; [|by split].
  apply append_dom in E3 as [Hd3 _]. rewrite <- Hd3 in Hsub, Hin.
  split; [done|].
  intros reply [= <-]. simpl. by split.
Qed.

Lemma chats_cons (c : Call) (calls : list Call) (s : Store) :
  (chats newId (c :: calls) s).2
  = (chat newId c s).2 :: (chats newId calls (chat newId c s).1).2.
Proof.
  simpl. destruct (chat newId c s) as [s1 r]. simpl.
  by destruct (chats newId calls s1).
Qed.

Lemma chats_fresh (calls : list Call) : forall (s : Store) (i : nat) c reply,
  calls !! i = Some c ->
  call_conversationId c = None ->
  snd (chats newId calls s) !! i = Some (inr reply) ->
  (conversationId reply ∉ dom (conversations s)) /\
  conversationId reply ∉ returnedIds (take i (chats newId calls s).2).
Proof.
  induction calls as [|c0 calls IH]; intros s i c reply Hc Hnone Hr; [done|].
  rewrite chats_cons in Hr |- *.
  pose proof (chat_dom c0 s) as [Hsub Hret].
  destruct i as [|i]; simpl in Hc, Hr.
  - injection Hc as ->. injection Hr as Hr.
    destruct (Hret reply Hr) as [_ Hnew]. split; [by apply Hnew|].
    simpl. apply not_elem_of_nil.
  - destruct (IH _ _ _ _ Hc Hnone Hr) as [Hdom Hearlier].
    split; [intros Hin; by apply Hdom, Hsub|].
    simpl take. unfold returnedIds in *. simpl omap.
    destruct ((chat newId c0 s).2) as [err|reply0] eqn:E0; [done|].
    destruct (Hret reply0 eq_refl) as [Hin _].
    rewrite elem_of_cons. intros [Heq|Hin']; [|done].
    rewrite <- Heq in Hin. done.
Qed.

(** C6: in every sequence of chat calls, a call made with no
    conversation id that returns an id returns one that no earlier call
    of the sequence returned, whatever the store was at the start. *)
Theorem chat_issues_fresh_ids (calls : list Call) (s : Store)
    (i : nat) (c : Call) (reply : Reply) :
  calls !! i = Some c ->
  call_conversationId c = None ->
  snd (chats newId calls s) !! i = Some (inr reply) ->
  conversationId reply ∉ returnedIds (take i (chats newId calls s).2).
Proof.
  intros Hc Hnone Hr. by destruct (chats_fresh calls s i c reply Hc Hnone Hr).
Qed.
End StoreFacts.

Lemma firstUnused_fresh (s : ConversationStore.Store) :
  ConversationStore.conversations s !! ConversationStore.firstUnused s = None.
Proof.
  unfold ConversationStore.firstUnused.
  apply not_elem_of_dom, is_fresh.
Qed.

Lemma chat_issues_fresh_ids_witness :
  exists reply,
    snd (ConversationStore.chats ConversationStore.firstUnused demoCalls
           ConversationStore.empty) !! 1 = Some (inr reply) /\
    ConversationStore.conversationId reply
    ∉ ConversationStore.returnedIds
        (take 1 (ConversationStore.chats ConversationStore.firstUnused demoCalls
                   ConversationStore.empty).2).
Proof.
  destruct (snd (ConversationStore.chats ConversationStore.firstUnused demoCalls
                   ConversationStore.empty) !! 1) as [[err|reply]|] eqn:E;
    try (vm_compute in E; discriminate E).
  exists reply. split; [reflexivity|].
  exact (chat_issues_fresh_ids ConversationStore.firstUnused firstUnused_fresh
           demoCalls ConversationStore.empty 1
           (demoCall "And its tests?") reply eq_refl eq_refl E).
Defined.

(** ** Health endpoint *)

(** C7: GET /api/health answers with status 200 and a JSON object whose
    [status] is "healthy", whatever headers the request carries, a token
    or none; the health line of the test script passes on it. *)
Theorem health_always_healthy
    (u : jsstring) (hs : list (jsstring * jsstring)) (b : RequestBody)
    (apiUrl : jsstring) :
  let r := {| url := u; method := js "GET"; headers := hs; body := b |} in
  (exists answer,
     Backend.route r (js "/api/health") = Some answer /\
     Backend.status answer = 200%N /\
     prop (js "status") (Backend.json answer) = VStr (js "healthy")) /\
  Backend.health hs = Backend.health [] /\
  Backend.test_json_endpoint Backend.route apiUrl (js "/api/health") 200
    (js "status") (js "healthy")
  = [Backend.StatusAsExpected; Backend.ValueAsExpected].
Proof.
  intros r. split_and!; try reflexivity.
  exists (Backend.health hs). by split_and!.
Qed.

(** * Further properties of the dashboard *)

(** ** Analytics panel *)

(** X1: A path that is empty or ends with "/" is shown whole; any other path
    is shown by what follows its last "/", which is not empty and has
    no "/" in it. *)
Theorem getFileName_last_segment (path : jsstring) :
  (path = [] \/ last path = Some 47%N -> getFileName path = path) /\
  (path <> [] -> last path <> Some 47%N ->
   getFileName path <> [] /\ (47%N ∉ getFileName path) /\
   (getFileName path = path \/
    exists dir, path = dir ++ 47%N :: getFileName path)).
Proof.
  unfold getFileName.
  destruct (last_split 47 path) as [[Hfree ->]|(a & b & -> & Hb & ->)].
  - split; [by destruct path|].
    intros Hne _. destruct path as [|c p]; [done|].
    split_and!; [done..|by left].
  - split.
    + intros [Hnil|Hlast]; [by destruct a|].
      destruct b as [|c b]; [done|].
      exfalso. apply Hb.
      rewrite (last_app_cons a), last_cons_cons in Hlast.
      destruct (last (c :: b)) eqn:E; [|by destruct b].
      apply last_Some_elem_of in E. by injection Hlast as ->.
    + intros _ Hlast. destruct b as [|c b].
      * exfalso. apply Hlast. by rewrite last_snoc.
      * split_and!; [done..|]. right. by exists a.
Qed.

Lemma getFileName_last_segment_witness :
  getFileName (js "docs/") = js "docs/" /\
  getFileName (js "src/app.py") <> [] /\
  47%N ∉ getFileName (js "src/app.py").
Proof.
  destruct (getFileName_last_segment (js "docs/")) as [Hwhole _].
  destruct (getFileName_last_segment (js "src/app.py")) as [_ Hseg].
  split; [apply Hwhole; right; reflexivity|].
  destruct Hseg as (Hne & Hfree & _); [discriminate | discriminate |].
  by split.
Defined.

(** X2: A file is classified by the text after its last dot, and a path
    without a dot by the whole path: the language of [stem.ext] is the
    language of the path [ext]. *)
Theorem languageIndex_after_last_dot
    (toLowerCase : jsstring -> jsstring) (stem ext : jsstring) :
  46%N ∉ ext ->
  extension toLowerCase ext = Some (toLowerCase ext) /\
  extension toLowerCase (stem ++ 46%N :: ext) = Some (toLowerCase ext) /\
  languageIndex toLowerCase (stem ++ 46%N :: ext) = languageIndex toLowerCase ext.
Proof.
  intros Hext.
  assert (H1 : extension toLowerCase ext = Some (toLowerCase ext)).
  { unfold extension. by rewrite split_without. }
  assert (H2 : extension toLowerCase (stem ++ 46%N :: ext)
               = Some (toLowerCase ext)).
  { unfold extension.
    by rewrite split_at_separator, (split_without _ _ Hext), last_snoc. }
  split_and!; [done..|]. unfold languageIndex. by rewrite H1, H2.
Qed.

Lemma languageIndex_after_last_dot_witness :
  languageIndex asciiLower (js "web/App" ++ 46%N :: js "TSX")
  = languageIndex asciiLower (js "TSX").
Proof.
  apply (languageIndex_after_last_dot asciiLower (js "web/App") (js "TSX")).
  refine (bool_decide_unpack _ _). vm_compute. exact I.
Defined.

(** X3: The colour of the ring goes with the family of the letter: green
    for the A grades, blue for the B grades, yellow for the C grades,
    orange for the D grades and red for F. *)
Theorem getScoreColor_follows_grade (score : Q) :
  (getScoreColor score = js "border-green-500"
   <-> getLetterGrade score ∈ [js "A+"; js "A"; js "A-"]) /\
  (getScoreColor score = js "border-blue-500"
   <-> getLetterGrade score ∈ [js "B+"; js "B"; js "B-"]) /\
  (getScoreColor score = js "border-yellow-500"
   <-> getLetterGrade score ∈ [js "C+"; js "C"; js "C-"]) /\
  (getScoreColor score = js "border-orange-500"
   <-> getLetterGrade score ∈ [js "D+"; js "D"]) /\
  (getScoreColor score = js "border-red-500"
   <-> getLetterGrade score = js "F").
Proof.
  unfold getScoreColor, getLetterGrade. grade_cases score.
  all: first [ exfalso; lra
             | split_and!; refine (bool_decide_unpack _ _);
               vm_compute; exact I ].
Qed.

(** X4: A call of [fetchAnalysisData] for a repository and a token sends one
    POST to /api/analyze with the token as bearer credential and ends
    with the loading flag cleared.  A 2xx answer replaces the data and
    clears the error; a failure sets the error, shows one toast and
    keeps the data that was loaded before. *)
Theorem fetchAnalysisData_outcome
    (env : option jsstring) (c d : N) (repo token : jsstring)
    (o : AnalyticsPanel.Outcome) (st : AnalyticsPanel.State) :
  let p := {| AnalyticsPanel.selectedRepo := Some (c :: repo);
              AnalyticsPanel.githubToken := Some (d :: token) |} in
  let out := AnalyticsPanel.fetchAnalysisData env p o st in
  AnalyticsPanel.isLoading out.1 = false /\
  AnalyticsPanel.activeTab out.1 = AnalyticsPanel.activeTab st /\
  (exists r rest,
     out.2 = AnalyticsPanel.Post r :: rest /\
     Forall (fun e => forall r', e <> AnalyticsPanel.Post r') rest /\
     AnalyticsPanel.url r = backendUrl env ++ js "/api/analyze" /\
     AnalyticsPanel.method r = js "POST" /\
     AnalyticsPanel.repository r = c :: repo /\
     AnalyticsPanel.headers r
     = [ (js "Content-Type", js "application/json");
         (js "Authorization", js "Bearer " ++ d :: token) ]) /\
  (forall data, o = AnalyticsPanel.Answer data ->
     AnalyticsPanel.analysisData out.1 = Some data /\
     AnalyticsPanel.error out.1 = None /\
     length out.2 = 1) /\
  (forall e, AnalyticsPanel.received o = Throw e ->
     AnalyticsPanel.analysisData out.1 = AnalyticsPanel.analysisData st /\
     AnalyticsPanel.error out.1 = Some (messageOf e) /\
     exists r, out.2 = [ AnalyticsPanel.Post r;
                         AnalyticsPanel.Notify
                           {| title := js "Analysis error";
                              description := messageOf e;
                              variant := js "destructive" |} ]).
Proof.
  intros p out. unfold out, AnalyticsPanel.fetchAnalysisData. simpl.
  destruct o as [| statusText | | | data]; simpl.
  all: split_and!; try done.
  all: try (do 2 eexists; split_and!; [reflexivity | | reflexivity..];
            repeat constructor; done).
  all: try (intros e [= <-]; split_and!; [done..|]; by eexists).
Qed.

Lemma fetchAnalysisData_outcome_witness :
  let st := {| AnalyticsPanel.activeTab := js "overview";
               AnalyticsPanel.isLoading := false;
               AnalyticsPanel.error := None;
               AnalyticsPanel.analysisData :=
                 Some {| AnalyticsPanel.overall_score := 8;
                         AnalyticsPanel.file_analyses := demoAnalyses;
                         AnalyticsPanel.summary := js "Fine." |} |} in
  let p := {| AnalyticsPanel.selectedRepo := Some (js "octo/demo");
              AnalyticsPanel.githubToken := Some (js "t") |} in
  AnalyticsPanel.analysisData
    (AnalyticsPanel.fetchAnalysisData None p
       (AnalyticsPanel.HttpError (js "Internal Server Error")) st).1
  = AnalyticsPanel.analysisData st.
Proof.
  intros st p.
  pose proof (fetchAnalysisData_outcome None 111 116 (js "cto/demo") []
                (AnalyticsPanel.HttpError (js "Internal Server Error")) st) as H.
  cbv zeta in H. destruct H as (_ & _ & _ & _ & H).
  destruct (H _ eq_refl) as (Hdata & _). exact Hdata.
Defined.

(** X5: What the panel shows after a call of [fetchAnalysisData]: the
    dashboard with the new data after a 2xx answer that carries data; the
    "No Analysis Data" view after a 2xx answer whose body is [null],
    whatever data was loaded before; after a failure the error view with
    the error's message, whatever data was loaded before, which a
    non-2xx answer always gives as "API error: ..."; and only for an
    error whose message is empty does the data loaded before show
    through. *)
Theorem render_after_fetchAnalysisData
    (engineMessage : thrown -> jsstring)
    (env : option jsstring) (c d : N) (repo token : jsstring)
    (o : AnalyticsPanel.Outcome) (st : AnalyticsPanel.State) :
  let p := {| AnalyticsPanel.selectedRepo := Some (c :: repo);
              AnalyticsPanel.githubToken := Some (d :: token) |} in
  let shown :=
    AnalyticsPanel.render engineMessage p
      (AnalyticsPanel.fetchAnalysisData env p o st).1 in
  (forall data, o = AnalyticsPanel.Answer data ->
     shown = AnalyticsPanel.Dashboard data) /\
  (o = AnalyticsPanel.NullAnswer ->
     shown = AnalyticsPanel.NoAnalysisData) /\
  (forall data, AnalyticsPanel.received o = Normal data ->
     shown = match data with
             | Some data => AnalyticsPanel.Dashboard data
             | None => AnalyticsPanel.NoAnalysisData
             end) /\
  (forall statusText, o = AnalyticsPanel.HttpError statusText ->
     shown = AnalyticsPanel.AnalysisError (js "API error: " ++ statusText)) /\
  (forall e, AnalyticsPanel.received o = Throw e ->
     AnalyticsPanel.textOf engineMessage (messageOf e) <> [] ->
     shown = AnalyticsPanel.AnalysisError
               (AnalyticsPanel.textOf engineMessage (messageOf e))) /\
  (forall e, AnalyticsPanel.received o = Throw e ->
     AnalyticsPanel.textOf engineMessage (messageOf e) = [] ->
     shown = match AnalyticsPanel.analysisData st with
             | Some data => AnalyticsPanel.Dashboard data
             | None => AnalyticsPanel.NoAnalysisData
             end).
Proof.
  intros p shown. unfold shown, AnalyticsPanel.fetchAnalysisData. simpl.
  split_and!.
  - by intros data ->.
  - by intros ->.
  - intros data ->. by destruct data.
  - by intros statusText ->.
  - intros e He Hmsg. rewrite He. unfold AnalyticsPanel.render. simpl.
    by destruct (AnalyticsPanel.textOf engineMessage (messageOf e)).
  - intros e He Hmsg. rewrite He. unfold AnalyticsPanel.render. simpl.
    by rewrite Hmsg.
Qed.

Lemma render_after_fetchAnalysisData_witness :
  let p := {| AnalyticsPanel.selectedRepo := Some (js "octo/demo");
              AnalyticsPanel.githubToken := Some (js "t") |} in
  let st := {| AnalyticsPanel.activeTab := js "overview";
               AnalyticsPanel.isLoading := false;
               AnalyticsPanel.error := None;
               AnalyticsPanel.analysisData :=
                 Some {| AnalyticsPanel.overall_score := 8;
                         AnalyticsPanel.file_analyses := demoAnalyses;
                         AnalyticsPanel.summary := js "Fine." |} |} in
  AnalyticsPanel.render (fun _ => js "Failed to fetch") p
    (AnalyticsPanel.fetchAnalysisData None p AnalyticsPanel.NullAnswer st).1
  = AnalyticsPanel.NoAnalysisData /\
  AnalyticsPanel.render (fun _ => js "Failed to fetch") p
    (AnalyticsPanel.fetchAnalysisData None p AnalyticsPanel.FetchRejected st).1
  = AnalyticsPanel.AnalysisError (js "Failed to fetch").
Proof.
  intros p st. split.
  - pose proof (render_after_fetchAnalysisData (fun _ => js "Failed to fetch")
                  None 111 116 (js "cto/demo") [] AnalyticsPanel.NullAnswer st)
      as H.
    cbv zeta in H. destruct H as (_ & H & _). exact (H eq_refl).
  - pose proof (render_after_fetchAnalysisData (fun _ => js "Failed to fetch")
                  None 111 116 (js "cto/demo") [] AnalyticsPanel.FetchRejected
                  st) as H.
    cbv zeta in H. destruct H as (_ & _ & _ & _ & H & _).
    apply (H TypeError eq_refl). discriminate.
Defined.

(** ** Repository sidebar *)

Lemma mapM_Normal {A B} (f : A -> completion B) (l : list A) (bs : list B) :
  mapM f l = Normal bs -> Forall2 (fun a b => f a = Normal b) l bs.
Proof.
  revert bs. induction l as [|a l IH]; intros bs; simpl.
  - intros [= <-]. constructor.
  - destruct (f a) as [b|e] eqn:Ea; simpl; [|done].
    destruct (mapM f l) as [bs'|e]; simpl; [|done].
    intros [= <-]. constructor; [done | by apply IH].
Qed.

Lemma or_else_truthy (a b : value) :
  toBoolean b = true -> toBoolean (or_else a b) = true.
Proof. intros Hb. unfold or_else. by destruct (toBoolean a) eqn:E. Qed.

Lemma formatBare_listed (repo formatted : value) :
  RepositorySidebar.formatBare repo = Normal formatted -> listed formatted.
Proof.
  unfold RepositorySidebar.formatBare.
  destruct (get repo (js "full_name")) as [full_name|] eqn:E1; [|done].
  cbn [mbind completion_bind].
  destruct (splitHead full_name) as [owner|]; [|done].
  cbn [mbind completion_bind].
  destruct (get repo (js "name")) as [name|]; [|done].
  cbn [mbind completion_bind].
  destruct (get repo (js "branches")) as [branches|]; [|done].
  cbn [mbind completion_bind].
  destruct (get repo (js "lastActive")) as [lastActive|]; [|done].
  cbn [mbind completion_bind].
  intros [= <-]. split; [by eexists|].
  split; apply or_else_truthy; reflexivity.
Qed.

Lemma formatSpread_listed (repo formatted : value) :
  RepositorySidebar.formatSpread repo = Normal formatted -> listed formatted.
Proof.
  unfold RepositorySidebar.formatSpread.
  destruct (get repo (js "branches")) as [branches|]; [|done].
  cbn [mbind completion_bind].
  destruct (get repo (js "lastActive")) as [lastActive|]; [|done].
  cbn [mbind completion_bind].
  intros [= <-]. split; [by eexists|].
  simpl prop. rewrite !lookupProp_setProp.
  split; repeat case_decide; try (exfalso; literal_clash); try done;
    apply or_else_truthy; reflexivity.
Qed.

Lemma formatWrapped_listed (data : value) (formatted : list value) :
  RepositorySidebar.formatWrapped data = Normal formatted ->
  Forall listed formatted.
Proof.
  unfold RepositorySidebar.formatWrapped.
  destruct (get data (js "repositories")) as [repos|]; [|done].
  cbn [mbind completion_bind].
  destruct (toBoolean repos && isArray repos)%bool; [|done].
  destruct repos; try done.
  intros H. apply mapM_Normal in H.
  induction H as [|a b l bs Hab _ IH]; constructor; [|done].
  by apply (formatSpread_listed a).
Qed.

Lemma tryBlock_listed (r : FetchResult) (formatted : list value) :
  RepositorySidebar.V1.tryBlock r = Normal formatted
  \/ RepositorySidebar.V2.tryBlock r = Normal formatted ->
  Forall listed formatted.
Proof.
  intros [H|H]; destruct r as [| | |data]; try done; simpl in H.
  - by apply (formatWrapped_listed data).
  - destruct data as [| | | | |items|]; try by apply (formatWrapped_listed _ _ H).
    apply mapM_Normal in H.
    induction H as [|a b l bs Hab _ IH]; constructor; [|done].
    by apply (formatBare_listed a).
Qed.

(** X6: After a call of [fetchRepositories], of either version and however
    the request ended, every entry of the list is an object whose
    [branches] and [lastActive] are set (truthy). *)
Theorem fetchRepositories_entries_listed
    (env githubToken : option jsstring) (r : FetchResult)
    (st : RepositorySidebar.State) :
  Forall listed (RepositorySidebar.repositories st) ->
  Forall listed
    (RepositorySidebar.repositories
       (RepositorySidebar.V1.fetchRepositories env githubToken r st).1) /\
  Forall listed
    (RepositorySidebar.repositories
       (RepositorySidebar.V2.fetchRepositories env githubToken r st).1).
Proof.
  intros Hst.
  unfold RepositorySidebar.V1.fetchRepositories,
    RepositorySidebar.V2.fetchRepositories.
  destruct githubToken as [[|c t]|]; [done| |done].
  split.
  - destruct (RepositorySidebar.V1.tryBlock r) as [l|e] eqn:E; simpl;
      [|constructor]. apply (tryBlock_listed r). by left.
  - destruct (RepositorySidebar.V2.tryBlock r) as [l|e] eqn:E; simpl;
      [|constructor]. apply (tryBlock_listed r). by right.
Qed.

Lemma fetchRepositories_entries_listed_witness :
  Forall listed
    (RepositorySidebar.repositories
       (RepositorySidebar.V2.fetchRepositories None (Some (js "t"))
          (Json (VArr [demoRepo])) RepositorySidebar.initial).1).
Proof.
  apply (fetchRepositories_entries_listed None (Some (js "t"))
           (Json (VArr [demoRepo])) RepositorySidebar.initial).
  constructor.
Defined.

(** X7: However the request ends, a call of [fetchRepositories] with a token
    sends one GET, clears the loading flag and leaves the search text
    and the selection alone; it ends either with the loaded list in both
    lists, no error and no toast, or with both lists empty, the error
    "Failed to load repositories" and one destructive toast. *)
Theorem fetchRepositories_settles
    (env : option jsstring) (c : N) (t : jsstring) (r : FetchResult)
    (st : RepositorySidebar.State) :
  let settled (out : RepositorySidebar.State * list Effect) :=
    RepositorySidebar.isLoading out.1 = false /\
    RepositorySidebar.searchQuery out.1 = RepositorySidebar.searchQuery st /\
    RepositorySidebar.selectedRepo out.1 = RepositorySidebar.selectedRepo st /\
    RepositorySidebar.filteredRepos out.1 = RepositorySidebar.repositories out.1 /\
    length (fetches out.2) = 1 /\
    ((RepositorySidebar.error out.1 = None /\ toasts out.2 = []) \/
     (RepositorySidebar.error out.1 = Some (js "Failed to load repositories") /\
      RepositorySidebar.repositories out.1 = [] /\
      exists e, toasts out.2 = [ {| title := js "Error loading repositories";
                                    description := messageOf e;
                                    variant := js "destructive" |} ])) in
  settled (RepositorySidebar.V1.fetchRepositories env (Some (c :: t)) r st) /\
  settled (RepositorySidebar.V2.fetchRepositories env (Some (c :: t)) r st).
Proof.
  intros settled. unfold settled.
  unfold RepositorySidebar.V1.fetchRepositories,
    RepositorySidebar.V2.fetchRepositories.
  split.
  - destruct (RepositorySidebar.V1.tryBlock r) as [l|e]; simpl;
      split_and!; try done; [by left | right; split_and!; try done; by eexists].
  - destruct (RepositorySidebar.V2.tryBlock r) as [l|e]; simpl;
      split_and!; try done; [by left | right; split_and!; try done; by eexists].
Qed.

(** X8: The second version extends the first: on a body that is not an
    array both leave the same state and show the same toasts, and a bare
    array, which the second version formats, is turned down by the first
    with "Invalid response format". *)
Theorem fetchRepositories_versions
    (env1 env2 : option jsstring) (githubToken : option jsstring)
    (data : value) (st : RepositorySidebar.State) :
  let first :=
    RepositorySidebar.V1.fetchRepositories env1 githubToken (Json data) st in
  let second :=
    RepositorySidebar.V2.fetchRepositories env2 githubToken (Json data) st in
  (isArray data = false ->
   first.1 = second.1 /\ toasts first.2 = toasts second.2) /\
  (isArray data = true -> truthy githubToken = true ->
   RepositorySidebar.repositories first.1 = [] /\
   RepositorySidebar.error first.1 = Some (js "Failed to load repositories") /\
   description <$> toasts first.2 = [Text (js "Invalid response format")]).
Proof.
  intros first second. unfold first, second.
  unfold RepositorySidebar.V1.fetchRepositories,
    RepositorySidebar.V2.fetchRepositories.
  destruct githubToken as [[|c t]|]; try done.
  split.
  - intros Harr. destruct data; try done; simpl;
      by destruct (RepositorySidebar.formatWrapped _).
  - intros Harr _. by destruct data.
Qed.

Lemma fetchRepositories_versions_witness :
  RepositorySidebar.repositories
    (RepositorySidebar.V1.fetchRepositories None (Some (js "t"))
       (Json (VArr [demoRepo])) RepositorySidebar.initial).1 = [] /\
  (RepositorySidebar.V1.fetchRepositories None (Some (js "t"))
     (Json (VObj [(js "repositories", VArr [demoRepo])]))
     RepositorySidebar.initial).1
  = (RepositorySidebar.V2.fetchRepositories None (Some (js "t"))
       (Json (VObj [(js "repositories", VArr [demoRepo])]))
       RepositorySidebar.initial).1.
Proof.
  split.
  - exact (proj1 (proj2 (fetchRepositories_versions None None (Some (js "t"))
                           (VArr [demoRepo]) RepositorySidebar.initial)
                    eq_refl eq_refl)).
  - exact (proj1 (proj1 (fetchRepositories_versions None None (Some (js "t"))
                           (VObj [(js "repositories", VArr [demoRepo])])
                           RepositorySidebar.initial) eq_refl)).
Defined.

Section SearchFacts.
Variable toLowerCase : jsstring -> jsstring.

Lemma matchesQuery_searchable (q : jsstring) (repo : value) :
  searchable repo ->
  SidebarSearch.matchesQuery toLowerCase q repo
  = Normal (matchesText toLowerCase q repo).
Proof.
  intros (n & o & Hn & Ho).
  destruct repo as [| | | | | |props]; try discriminate.
  simpl in Hn, Ho. injection Hn as Hn. injection Ho as Ho.
  unfold SidebarSearch.matchesQuery, matchesText. simpl.
  rewrite Hn, Ho. simpl.
  by destruct (includes (toLowerCase n) (toLowerCase q)).
Qed.

Lemma matchesQuery_throws (q : jsstring) (repo : value) (e : thrown) :
  SidebarSearch.matchesQuery toLowerCase q repo = Throw e -> e = TypeError.
Proof.
  unfold SidebarSearch.matchesQuery.
  assert (Hget : forall k v e', get v k = Throw e' -> e' = TypeError)
    by (intros k v e'; destruct v; simpl; congruence).
  destruct (get repo (js "name")) as [name|e1] eqn:E1;
    cbn [mbind completion_bind];
    [|intros [= <-]; by apply (Hget _ _ _ E1)].
  destruct name; simpl; try congruence.
  destruct (includes _ _); [done|].
  destruct (get repo (js "owner")) as [owner|e2] eqn:E2;
    cbn [mbind completion_bind];
    [|intros [= <-]; by apply (Hget _ _ _ E2)].
  destruct owner; simpl; congruence.
Qed.

Lemma filterM_total {A} (f : A -> completion bool) (g : A -> bool) (l : list A) :
  Forall (fun a => f a = Normal (g a)) l ->
  filterM f l = Normal (List.filter g l).
Proof.
  induction 1 as [|a l Ha _ IH]; [done|].
  simpl. rewrite Ha, IH. simpl. by destruct (g a).
Qed.

Lemma filterM_throws {A} (f : A -> completion bool) (l : list A) (a : A) :
  (forall x e, f x = Throw e -> e = TypeError) ->
  a ∈ l -> f a = Throw TypeError -> filterM f l = Throw TypeError.
Proof.
  intros Honly Hin Ha. induction Hin as [a l|a b l _ IH]; simpl.
  - by rewrite Ha.
  - destruct (f b) as [keep|e] eqn:Eb; simpl.
    + by rewrite IH.
    + by rewrite (Honly b e Eb).
Qed.

(** X9: The search effect.  A blank search text shows the whole list.
    Otherwise, when every entry has a string name and a string owner,
    the effect keeps exactly the entries whose lowered name or lowered
    owner contains the lowered search text (the text as typed, not
    trimmed), in their order, and changes nothing else. *)
Theorem filterRepos_exact (st : RepositorySidebar.State) :
  (trim (RepositorySidebar.searchQuery st) = [] ->
   exists st', SidebarSearch.filterRepos toLowerCase st = Normal st' /\
     RepositorySidebar.filteredRepos st' = RepositorySidebar.repositories st) /\
  (trim (RepositorySidebar.searchQuery st) <> [] ->
   Forall searchable (RepositorySidebar.repositories st) ->
   exists st', SidebarSearch.filterRepos toLowerCase st = Normal st' /\
     RepositorySidebar.filteredRepos st'
     = List.filter (matchesText toLowerCase (RepositorySidebar.searchQuery st))
                   (RepositorySidebar.repositories st) /\
     RepositorySidebar.filteredRepos st' `sublist_of` RepositorySidebar.repositories st /\
     RepositorySidebar.repositories st' = RepositorySidebar.repositories st /\
     RepositorySidebar.searchQuery st' = RepositorySidebar.searchQuery st /\
     RepositorySidebar.selectedRepo st' = RepositorySidebar.selectedRepo st /\
     RepositorySidebar.error st' = RepositorySidebar.error st).
Proof.
  unfold SidebarSearch.filterRepos. split.
  - intros ->. by eexists.
  - intros Hq Hall.
    destruct (trim (RepositorySidebar.searchQuery st)) as [|c q]; [done|].
    rewrite (filterM_total _ (matchesText toLowerCase
                                (RepositorySidebar.searchQuery st))).
    + simpl. eexists. split; [reflexivity|]. simpl. split_and!; try done.
      clear. induction (RepositorySidebar.repositories st) as [|a l IH];
        simpl; [done|].
      destruct (matchesText _ _ a); by constructor.
    + eapply Forall_impl; [exact Hall|]. intros repo.
      apply matchesQuery_searchable.
Qed.

(** X10: The search effect throws when it meets an entry whose name does not
    match and whose owner is not a string: the owner is only looked at
    when the name fails, and [toLowerCase] is called on it unguarded. *)
Theorem filterRepos_throws (st : RepositorySidebar.State) (repo : value)
    (n : jsstring) :
  trim (RepositorySidebar.searchQuery st) <> [] ->
  repo ∈ RepositorySidebar.repositories st ->
  get repo (js "name") = Normal (VStr n) ->
  includes (toLowerCase n) (toLowerCase (RepositorySidebar.searchQuery st)) = false ->
  (forall o, get repo (js "owner") <> Normal (VStr o)) ->
  SidebarSearch.filterRepos toLowerCase st = Throw TypeError.
Proof.
  intros Hq Hin Hn Hmiss Howner. unfold SidebarSearch.filterRepos.
  destruct (trim (RepositorySidebar.searchQuery st)) as [|c q]; [done|].
  rewrite (filterM_throws _ _ repo); [done | | done |].
  - intros x e. apply matchesQuery_throws.
  - unfold SidebarSearch.matchesQuery. rewrite Hn. simpl. rewrite Hmiss.
    destruct (get repo (js "owner")) as [owner|e] eqn:Eo.
    + cbn [mbind completion_bind]. destruct owner; try done.
      by destruct (Howner s).
    + destruct repo; try discriminate; simpl in *; congruence.
Qed.
End SearchFacts.

Lemma filterRepos_exact_witness :
  let st :=
    withSearchQuery (js "OCTO")
      (RepositorySidebar.V2.fetchRepositories None (Some (js "t"))
         (Json (VArr [demoRepo])) RepositorySidebar.initial).1 in
  exists st', SidebarSearch.filterRepos asciiLower st = Normal st' /\
    length (RepositorySidebar.filteredRepos st') = 1.
Proof.
  intros st.
  destruct (filterRepos_exact asciiLower st) as [_ H].
  destruct H as (st' & Hst' & Hfiltered & _).
  - discriminate.
  - constructor; [|constructor].
    exists (js "demo"), (js "octo"). by split.
  - exists st'. split; [exact Hst'|]. rewrite Hfiltered. reflexivity.
Defined.

Lemma filterRepos_throws_witness :
  let st :=
    withSearchQuery (js "octo")
      (RepositorySidebar.V2.fetchRepositories None (Some (js "t"))
         (Json (VObj [(js "repositories", VArr [demoRepo])]))
         RepositorySidebar.initial).1 in
  SidebarSearch.filterRepos asciiLower st = Throw TypeError.
Proof.
  intros st.
  eapply (filterRepos_throws asciiLower st _ (js "demo")).
  - discriminate.
  - apply list_elem_of_here.
  - reflexivity.
  - reflexivity.
  - intros o. discriminate.
Defined.

Lemma filterRepos_total (toLowerCase : jsstring -> jsstring)
    (st : RepositorySidebar.State) :
  Forall searchable (RepositorySidebar.repositories st) ->
  exists st', SidebarSearch.filterRepos toLowerCase st = Normal st'.
Proof.
  intros Hall. unfold SidebarSearch.filterRepos.
  destruct (trim (RepositorySidebar.searchQuery st)); [by eexists|].
  rewrite (filterM_total _ (matchesText toLowerCase
                              (RepositorySidebar.searchQuery st))).
  - by eexists.
  - eapply Forall_impl; [exact Hall|]. intros repo.
    apply matchesQuery_searchable.
Qed.

Lemma beforeSlash_owner (o n : jsstring) :
  47%N ∉ o -> beforeSlash (o ++ 47%N :: n) = o.
Proof.
  intros Ho. unfold beforeSlash.
  by rewrite split_at_separator, (split_without _ _ Ho).
Qed.

(** X11: After the second version has loaded a bare array whose elements
    carry a string [full_name] and a string [name], every entry has a
    string owner, so the search effect succeeds for every search text. *)
Theorem bare_array_is_searchable
    (toLowerCase : jsstring -> jsstring)
    (env : option jsstring) (c : N) (t : jsstring) (items : list value)
    (st : RepositorySidebar.State) (q : jsstring) :
  Forall (fun repo => hasFullName repo
                      /\ exists n, prop (js "name") repo = VStr n) items ->
  let loaded :=
    (RepositorySidebar.V2.fetchRepositories env (Some (c :: t))
       (Json (VArr items)) st).1 in
  length (RepositorySidebar.repositories loaded) = length items /\
  Forall searchable (RepositorySidebar.repositories loaded) /\
  exists st', SidebarSearch.filterRepos toLowerCase (withSearchQuery q loaded)
              = Normal st'.
Proof.
  intros Hitems loaded.
  destruct (mapM_Forall2 RepositorySidebar.formatBare
              (fun repo formatted => bareFormatOf repo formatted
                 /\ exists n, prop (js "name") repo = VStr n) items)
    as (bs & Hbs & HF).
  { eapply Forall_impl; [exact Hitems|]. intros repo [Hfull Hname].
    destruct (formatBare_spec repo Hfull) as (formatted & ? & ?).
    by exists formatted. }
  assert (Hloaded : RepositorySidebar.repositories loaded = bs).
  { unfold loaded, RepositorySidebar.V2.fetchRepositories.
    simpl RepositorySidebar.V2.tryBlock. by rewrite Hbs. }
  assert (Hsearchable : Forall searchable bs).
  { clear -HF. induction HF as [|repo formatted l bs [Hfmt Hname] _ IH];
      constructor; [|done].
    destruct Hfmt as (s & _ & ->). destruct Hname as (n & Hn).
    exists n, (beforeSlash s). simpl. by rewrite Hn. }
  rewrite Hloaded. split_and!.
  - symmetry. by eapply Forall2_length.
  - done.
  - apply filterRepos_total. simpl. by rewrite Hloaded.
Qed.

Lemma bare_array_is_searchable_witness :
  exists st',
    SidebarSearch.filterRepos asciiLower
      (withSearchQuery (js "zzz")
         (RepositorySidebar.V2.fetchRepositories None (Some (js "t"))
            (Json (VArr [demoRepo])) RepositorySidebar.initial).1)
    = Normal st'.
Proof.
  apply (bare_array_is_searchable asciiLower None 116 [] [demoRepo]
           RepositorySidebar.initial (js "zzz")).
  constructor; [|constructor]. split.
  - exists (js "octo/demo"). reflexivity.
  - exists (js "demo"). reflexivity.
Defined.

(** X12: Clicking an entry of a list loaded from a bare array selects the
    repository by its full name: when [full_name] is "owner/name" with
    no "/" in the owner and [name] is that name, the entry's owner is
    that owner, [handleRepoSelect] hands the full name to the page and
    the entry is shown active. *)
Theorem handleRepoSelect_full_name
    (repo formatted : value) (o n : jsstring) (st : RepositorySidebar.State) :
  47%N ∉ o ->
  prop (js "full_name") repo = VStr (o ++ 47%N :: n) ->
  prop (js "name") repo = VStr n ->
  RepositorySidebar.formatBare repo = Normal formatted ->
  prop (js "owner") formatted = VStr o /\
  prop (js "name") formatted = VStr n /\
  let out := SidebarSearch.handleRepoSelect n o st in
  VStr out.2 = prop (js "full_name") repo /\
  RepositorySidebar.selectedRepo out.1 = Some out.2 /\
  SidebarSearch.isActive out.1 n o = true /\
  RepositorySidebar.repositories out.1 = RepositorySidebar.repositories st /\
  RepositorySidebar.filteredRepos out.1 = RepositorySidebar.filteredRepos st.
Proof.
  intros Ho Hfull Hname Hfmt.
  destruct (formatBare_spec repo) as (formatted' & Hfmt' & s & Hs & ->).
  { by eexists. }
  rewrite Hfmt in Hfmt'. injection Hfmt' as ->.
  rewrite Hfull in Hs. injection Hs as <-.
  split_and!.
  - simpl prop. by rewrite (beforeSlash_owner _ _ Ho).
  - simpl prop. exact Hname.
  - intros out. unfold out, SidebarSearch.handleRepoSelect,
      SidebarSearch.isActive.
    cbn [fst snd RepositorySidebar.selectedRepo RepositorySidebar.repositories
         RepositorySidebar.filteredRepos].
    change (js "/") with [47%N]. rewrite Hfull.
    split_and!; try done. by apply bool_decide_eq_true_2.
Qed.

Lemma handleRepoSelect_full_name_witness :
  (SidebarSearch.handleRepoSelect (js "demo") (js "octo")
     RepositorySidebar.initial).2 = js "octo/demo".
Proof.
  destruct (handleRepoSelect_full_name demoRepo
              (VObj [ (js "full_name", VStr (js "octo/demo"));
                      (js "owner", VStr (js "octo"));
                      (js "name", VStr (js "demo"));
                      (js "branches", RepositorySidebar.defaultBranches);
                      (js "lastActive", RepositorySidebar.defaultLastActive) ])
              (js "octo") (js "demo") RepositorySidebar.initial)
    as (_ & _ & H).
  - refine (bool_decide_unpack _ _). vm_compute. exact I.
  - reflexivity.
  - reflexivity.
  - reflexivity.
  - cbv zeta in H. destruct H as (H & _).
    exact (f_equal (fun v => match v with VStr s => s | _ => [] end) H).
Defined.

(** ** Chat interface *)

Lemma js_inj (s1 s2 : string) : js s1 = js s2 -> s1 = s2.
Proof.
  unfold js. intros H.
  rewrite <- (string_of_list_ascii_of_string s1),
          <- (string_of_list_ascii_of_string s2).
  f_equal. revert H.
  generalize (list_ascii_of_string s1) (list_ascii_of_string s2).
  induction l as [|a l IH]; intros [|b l'] H; try done.
  simpl in H. injection H as Hab Hl. f_equal; [|by apply IH].
  by rewrite <- (ascii_N_embedding a), <- (ascii_N_embedding b), Hab.
Qed.

(** [toString] can be read back. *)
Lemma parseDecimal_toString (n : N) : parseDecimal (toString n) = Some n.
Proof.
  unfold parseDecimal, toString, js.
  rewrite map_map.
  rewrite (map_ext _ (fun a => a)) by apply ascii_N_embedding.
  rewrite map_id, string_of_list_ascii_of_string, NilEmpty.usu.
  simpl. by rewrite DecimalN.Unsigned.of_to.
Qed.

Lemma toString_inj (n m : N) : toString n = toString m -> n = m.
Proof.
  intros H. apply (f_equal parseDecimal) in H.
  rewrite !parseDecimal_toString in H. by injection H.
Qed.

Lemma toString_not_welcome (n : N) : toString n <> js "welcome".
Proof.
  intros H. apply (f_equal parseDecimal) in H.
  rewrite parseDecimal_toString in H. vm_compute in H. discriminate H.
Qed.

(** X13: Every call of [handleSendMessage] that passes the guards adds one
    exchange to the display, whatever becomes of the request: the user's
    question as typed, which is not blank, then one message of role
    assistant whose text is not empty.  The conversation id is the one
    of before, or a non-empty id that the answer carried. *)
Theorem handleSendMessage_exchange
    (env : option jsstring) (p : ChatInterface.Props)
    (clk clk' : ChatInterface.Clock) (o : ChatInterface.Outcome)
    (st st1 : ChatInterface.State) (r : Request) :
  ChatInterface.start env p clk st = ChatInterface.Awaiting st1 r ->
  let out := ChatInterface.handleSendMessage env p clk clk' o st in
  (exists reply,
     ChatInterface.messages out.1
       = ChatInterface.messages st ++ [userMessageOf clk st; reply] /\
     ChatInterface.role reply = assistant /\
     ChatInterface.content reply <> [] /\
     ChatInterface.id reply = toString (ChatInterface.dateNow clk' + 1) /\
     (forall data, o = ChatInterface.Answer data ->
        truthy (ChatInterface.response data) = true ->
        Some (ChatInterface.content reply) = ChatInterface.response data)) /\
  trim (ChatInterface.content (userMessageOf clk st)) <> [] /\
  ChatInterface.input out.1 = [] /\
  ChatInterface.isLoading out.1 = false /\
  fetches out.2 = [r] /\
  (ChatInterface.conversationId out.1 = ChatInterface.conversationId st \/
   exists data c cid,
     o = ChatInterface.Answer data /\
     ChatInterface.conversation_id data = Some (c :: cid) /\
     ChatInterface.conversationId out.1 = Some (c :: cid)).
Proof.
  intros Hstart out.
  unfold out, ChatInterface.handleSendMessage. rewrite Hstart.
  unfold ChatInterface.start in Hstart.
  destruct (trim (ChatInterface.input st)) as [|c0 q] eqn:Htrim; [done|].
  destruct (ChatInterface.selectedRepo p) as [[|? ?]|]; try done.
  destruct (ChatInterface.githubToken p) as [[|? ?]|]; try done.
  injection Hstart as <- <-.
  unfold ChatInterface.settle.
  destruct o as [| statusText | | data]; simpl.
  1-3: split_and!; try done; [|by rewrite Htrim|by left];
       eexists; split_and!; [by rewrite <- app_assoc|done..].
  split_and!; [|by rewrite Htrim|..].
  - eexists. split_and!.
    + destruct (truthy (ChatInterface.conversation_id data)); simpl;
        by rewrite <- app_assoc.
    + done.
    + simpl. by destruct (ChatInterface.response data) as [[|? ?]|].
    + done.
    + intros data' [= <-] Htruthy. simpl. rewrite Htruthy.
      by destruct (ChatInterface.response data) as [[|? ?]|].
  - by destruct (truthy (ChatInterface.conversation_id data)).
  - by destruct (truthy (ChatInterface.conversation_id data)).
  - done.
  - destruct (ChatInterface.conversation_id data) as [[|c cid]|] eqn:E;
      simpl; try by left.
    right. by exists data, c, cid.
Qed.

Lemma handleSendMessage_exchange_witness :
  fetches
    (ChatInterface.handleSendMessage None demoProps (clockAt 2000) (clockAt 3000)
       (ChatInterface.Answer
          {| ChatInterface.response := None;
             ChatInterface.conversation_id := Some (js "c2") |}) demoChat).2
  = [ChatInterface.request None (js "t") (js "octo/demo") demoChat].
Proof.
  destruct (handleSendMessage_exchange None demoProps (clockAt 2000)
              (clockAt 3000)
              (ChatInterface.Answer
                 {| ChatInterface.response := None;
                    ChatInterface.conversation_id := Some (js "c2") |})
              demoChat _ _ eq_refl) as (_ & _ & _ & _ & H & _).
  exact H.
Defined.

Lemma handleSendMessage_exchange_keys_aux
    (env : option jsstring) (p : ChatInterface.Props)
    (clk clk' : ChatInterface.Clock) (o : ChatInterface.Outcome)
    (st st1 : ChatInterface.State) (r : Request) :
  ChatInterface.start env p clk st = ChatInterface.Awaiting st1 r ->
  exists reply,
    ChatInterface.messages
      (ChatInterface.handleSendMessage env p clk clk' o st).1
    = ChatInterface.messages st ++ [userMessageOf clk st; reply] /\
    ChatInterface.id reply = toString (ChatInterface.dateNow clk' + 1).
Proof.
  intros Hstart.
  unfold ChatInterface.handleSendMessage. rewrite Hstart.
  unfold ChatInterface.start in Hstart.
  destruct (trim (ChatInterface.input st)) as [|c0 q]; [done|].
  destruct (ChatInterface.selectedRepo p) as [[|? ?]|]; try done.
  destruct (ChatInterface.githubToken p) as [[|? ?]|]; try done.
  injection Hstart as <- <-.
  unfold ChatInterface.settle.
  destruct o as [| statusText | | data]; simpl;
    try (eexists; split; [by rewrite <- app_assoc | done]).
  eexists. split;
    [destruct (truthy (ChatInterface.conversation_id data)); simpl;
       by rewrite <- app_assoc
    |reflexivity].
Qed.

(** X14: The keys of the rendered list: when the clock has not gone back
    between the question and the answer, the two messages of an
    exchange have different ids, and neither is the id of the welcome
    message. *)
Theorem handleSendMessage_keys
    (env : option jsstring) (p : ChatInterface.Props)
    (clk clk' : ChatInterface.Clock) (o : ChatInterface.Outcome)
    (st st1 : ChatInterface.State) (r : Request) :
  ChatInterface.start env p clk st = ChatInterface.Awaiting st1 r ->
  (ChatInterface.dateNow clk <= ChatInterface.dateNow clk')%N ->
  let out := ChatInterface.handleSendMessage env p clk clk' o st in
  exists question reply,
    messageKeys out.1 = messageKeys st ++ [question; reply] /\
    question <> reply /\
    question <> js "welcome" /\ reply <> js "welcome".
Proof.
  intros Hstart Hclock out.
  destruct (handleSendMessage_exchange_keys_aux env p clk clk' o st st1 r Hstart)
    as (reply & Hmsgs & Hid).
  exists (toString (ChatInterface.dateNow clk)),
         (toString (ChatInterface.dateNow clk' + 1)).
  split_and!.
  - unfold messageKeys, out. rewrite Hmsgs, fmap_app. simpl. by rewrite Hid.
  - intros H. apply toString_inj in H. lia.
  - apply toString_not_welcome.
  - apply toString_not_welcome.
Qed.

Lemma handleSendMessage_keys_witness :
  NoDup
    (messageKeys
       (ChatInterface.handleSendMessage None demoProps (clockAt 2000)
          (clockAt 2000) ChatInterface.FetchRejected demoChat).1).
Proof.
  destruct (handleSendMessage_keys None demoProps (clockAt 2000) (clockAt 2000)
              ChatInterface.FetchRejected demoChat _ _ eq_refl)
    as (question & reply & -> & Hqr & Hq & Hr).
  { simpl. lia. }
  change (messageKeys demoChat) with [js "welcome"].
  simpl. apply NoDup_cons. split.
  - rewrite elem_of_cons, list_elem_of_singleton. intros [H|H]; congruence.
  - apply NoDup_cons. split; [|apply NoDup_singleton].
    by rewrite list_elem_of_singleton.
Defined.

Lemma start_body (env : option jsstring) (p : ChatInterface.Props)
    (clk : ChatInterface.Clock) (st st1 : ChatInterface.State) (r : Request) :
  ChatInterface.start env p clk st = ChatInterface.Awaiting st1 r ->
  historyOf r
  = map (fun m => (ChatInterface.role m, ChatInterface.content m))
        (ChatInterface.messages st) /\
  questionOf r = Some (ChatInterface.input st) /\
  ChatInterface.conversationOf r = ChatInterface.conversationId st /\
  ChatInterface.repositoryOf r = ChatInterface.selectedRepo p /\
  bearerToken r = ChatInterface.githubToken p /\
  url r = backendUrl env ++ js "/api/chat" /\
  method r = js "POST".
Proof.
  unfold ChatInterface.start.
  destruct (trim (ChatInterface.input st)); [done|].
  destruct (ChatInterface.selectedRepo p) as [[|? ?]|]; try done.
  destruct (ChatInterface.githubToken p) as [[|? ?]|]; try done.
  by intros [= <- <-].
Qed.

(** X15: What the next request tells the backend about an exchange: the
    history it carries is the history of the previous request followed by
    the question and by the text shown as the assistant's, and after a
    failed request that text is the client's own error message.  The
    question being asked is not part of the history. *)
Theorem next_request_history
    (env : option jsstring) (p : ChatInterface.Props)
    (clk clk' clk2 : ChatInterface.Clock) (o : ChatInterface.Outcome)
    (st st1 st2 : ChatInterface.State) (r r2 : Request) (q2 : jsstring) :
  ChatInterface.start env p clk st = ChatInterface.Awaiting st1 r ->
  let after := (ChatInterface.handleSendMessage env p clk clk' o st).1 in
  ChatInterface.start env p clk2 (ChatInterface.setInput q2 after)
    = ChatInterface.Awaiting st2 r2 ->
  questionOf r2 = Some q2 /\
  (exists shown,
     historyOf r2
     = historyOf r ++ [(user, ChatInterface.input st); (assistant, shown)] /\
     (forall e, ChatInterface.received o = Throw e ->
        shown = ChatInterface.errorText)) /\
  ChatInterface.conversationOf r2 = ChatInterface.conversationId after.
Proof.
  intros Hstart after Hnext.
  destruct (start_body _ _ _ _ _ _ Hstart) as (Hhist & _).
  destruct (start_body _ _ _ _ _ _ Hnext) as (Hhist2 & Hq2 & Hconv2 & _).
  split_and!; [done| |done].
  rewrite Hhist2, Hhist. simpl ChatInterface.messages.
  unfold after, ChatInterface.handleSendMessage. rewrite Hstart.
  unfold ChatInterface.start in Hstart.
  destruct (trim (ChatInterface.input st)); [done|].
  destruct (ChatInterface.selectedRepo p) as [[|? ?]|]; try done.
  destruct (ChatInterface.githubToken p) as [[|? ?]|]; try done.
  injection Hstart as <- _.
  unfold ChatInterface.settle.
  destruct o as [| statusText | | data]; simpl.
  1-3: eexists; split; [by rewrite <- app_assoc, map_app | done].
  eexists. split;
    [destruct (truthy (ChatInterface.conversation_id data)); simpl;
       by rewrite <- app_assoc, map_app
    |done].
Qed.

Lemma next_request_history_witness :
  exists st2 r2,
    ChatInterface.start None demoProps (clockAt 4000)
      (ChatInterface.setInput (js "And its tests?")
         (ChatInterface.handleSendMessage None demoProps (clockAt 2000)
            (clockAt 3000) ChatInterface.BodyRejected demoChat).1)
    = ChatInterface.Awaiting st2 r2 /\
    (assistant, ChatInterface.errorText) ∈ historyOf r2.
Proof.
  destruct (ChatInterface.start None demoProps (clockAt 4000)
              (ChatInterface.setInput (js "And its tests?")
                 (ChatInterface.handleSendMessage None demoProps (clockAt 2000)
                    (clockAt 3000) ChatInterface.BodyRejected demoChat).1))
    as [effs|st2 r2] eqn:E; [vm_compute in E; discriminate E|].
  exists st2, r2. split; [reflexivity|].
  destruct (next_request_history None demoProps (clockAt 2000) (clockAt 3000)
              (clockAt 4000) ChatInterface.BodyRejected demoChat _ _ _ _
              (js "And its tests?") eq_refl E)
    as (_ & (shown & -> & Hshown) & _).
  rewrite (Hshown SyntaxError eq_refl).
  rewrite elem_of_app. right. apply list_elem_of_further, list_elem_of_here.
Defined.

(** X16: Without a token (null or empty) no handler of the dashboard sends a
    request: the two versions of [fetchRepositories] and
    [fetchAnalysisData] return at once, and [handleSendMessage] at most
    shows the "Authentication required" toast; the state is untouched. *)
Theorem no_request_without_token
    (env : option jsstring) (githubToken repo : option jsstring)
    (r : FetchResult) (sidebar : RepositorySidebar.State)
    (oa : AnalyticsPanel.Outcome) (panel : AnalyticsPanel.State)
    (clk clk' : ChatInterface.Clock) (oc : ChatInterface.Outcome)
    (chat : ChatInterface.State) :
  truthy githubToken = false ->
  RepositorySidebar.V1.fetchRepositories env githubToken r sidebar = (sidebar, []) /\
  RepositorySidebar.V2.fetchRepositories env githubToken r sidebar = (sidebar, []) /\
  AnalyticsPanel.fetchAnalysisData env
    {| AnalyticsPanel.selectedRepo := repo;
       AnalyticsPanel.githubToken := githubToken |} oa panel = (panel, []) /\
  let sent :=
    ChatInterface.handleSendMessage env
      {| ChatInterface.selectedRepo := repo;
         ChatInterface.githubToken := githubToken |} clk clk' oc chat in
  sent.1 = chat /\ fetches sent.2 = [] /\
  (sent.2 = [] \/
   (title <$> toasts sent.2) = [js "Authentication required"]).
Proof.
  intros Htoken.
  assert (Hcases : githubToken = None \/ githubToken = Some [])
    by (destruct githubToken as [[|? ?]|]; auto; discriminate).
  split_and!.
  - by destruct Hcases as [-> | ->].
  - by destruct Hcases as [-> | ->].
  - unfold AnalyticsPanel.fetchAnalysisData. simpl.
    destruct repo as [[|? ?]|]; by destruct Hcases as [-> | ->].
  - intros sent. unfold sent, ChatInterface.handleSendMessage,
      ChatInterface.start. simpl.
    destruct (trim (ChatInterface.input chat)); [by split_and!; try left|].
    destruct repo as [[|? ?]|]; try (by split_and!; try left).
    destruct Hcases as [-> | ->]; split_and!; try done; by right.
Qed.

Lemma no_request_without_token_witness :
  fetches
    (ChatInterface.handleSendMessage None
       {| ChatInterface.selectedRepo := Some (js "octo/demo");
          ChatInterface.githubToken := Some [] |}
       (clockAt 2000) (clockAt 3000) ChatInterface.FetchRejected demoChat).2
  = [].
Proof.
  destruct (no_request_without_token None (Some []) (Some (js "octo/demo"))
              Rejected RepositorySidebar.initial
              AnalyticsPanel.FetchRejected
              {| AnalyticsPanel.activeTab := js "overview";
                 AnalyticsPanel.isLoading := false;
                 AnalyticsPanel.error := None;
                 AnalyticsPanel.analysisData := None |}
              (clockAt 2000) (clockAt 3000) ChatInterface.FetchRejected
              demoChat eq_refl) as (_ & _ & _ & H).
  cbv zeta in H. by destruct H as (_ & H & _).
Defined.

Lemma answerCarried_app (cid : jsstring) (l l' : list ChatInterface.LogEntry) :
  answerCarried cid l -> answerCarried cid (l ++ l').
Proof.
  intros (r & data & Hin & Hcid). exists r, data.
  split; [|done]. apply elem_of_app. by left.
Qed.

Lemma settle_isLoading (clk : ChatInterface.Clock) (o : ChatInterface.Outcome)
    (st : ChatInterface.State) :
  ChatInterface.isLoading (ChatInterface.settle clk o st).1 = false.
Proof.
  unfold ChatInterface.settle. destruct o as [| | |data]; simpl; done.
Qed.

Lemma runKeeps_step (env : option jsstring) (c : ChatInterface.Component)
    (e : ChatInterface.Event) :
  runKeeps c -> runKeeps (ChatInterface.step env c e).
Proof.
  intros (Hload & Hcid & Hsent).
  destruct e as [repo now|token|s|clk|k clk o]; simpl.
  - split_and!; simpl; [| |done].
    + intros Hin. case_decide; [by apply Hload|].
      unfold ChatInterface.onSelectedRepo.
      destruct repo as [[|? ?]|]; simpl; by apply Hload.
    + intros cid. case_decide; [by apply Hcid|].
      unfold ChatInterface.onSelectedRepo. by destruct repo as [[|? ?]|].
  - by split_and!.
  - by split_and!.
  - destruct (ChatInterface.start env (ChatInterface.props c) clk
                (ChatInterface.state c)) as [effs|st1 r] eqn:Hstart; simpl.
    + by split_and!.
    + apply start_request in Hstart as (_ & Hconv & Hkeep).
      split_and!; simpl.
      * intros Hin. by destruct (ChatInterface.inflight c).
      * intros cid Hst1. rewrite Hkeep in Hst1.
        by apply answerCarried_app, Hcid.
      * intros i r' cid Hi Hr'.
        destruct (decide (i < length (ChatInterface.log c))) as [Hlt|Hge].
        -- rewrite lookup_app_l in Hi by done.
           rewrite take_app_le by lia. by apply (Hsent i r').
        -- rewrite lookup_app_r in Hi by lia.
           destruct (i - length (ChatInterface.log c)) as [|j] eqn:Ej;
             [|by destruct j].
           injection Hi as <-.
           assert (i = length (ChatInterface.log c)) as -> by lia.
           rewrite take_app_length. apply Hcid. by rewrite <- Hconv.
  - destruct (ChatInterface.inflight c !! k) as [r|]; [|by split_and!].
    pose proof (settle_isLoading clk o (ChatInterface.state c)) as Hfalse.
    pose proof (settle_conversationId clk o (ChatInterface.state c)) as Hnew.
    destruct (ChatInterface.settle clk o (ChatInterface.state c))
      as [st effs]. simpl in *.
    split_and!; simpl.
    + done.
    + intros cid Hst.
      destruct Hnew as [Hsame|(data & cid' & -> & Hdata & Hnew)].
      * rewrite Hsame in Hst. by apply answerCarried_app, Hcid.
      * rewrite Hnew in Hst. injection Hst as ->.
        exists r, data. split; [|done]. simpl.
        apply elem_of_app. right. apply list_elem_of_here.
    + intros i r' cid Hi Hr'.
      destruct (decide (i < length (ChatInterface.log c))) as [Hlt|Hge].
      * rewrite lookup_app_l in Hi by done.
        rewrite take_app_le by lia. by apply (Hsent i r').
      * rewrite lookup_app_r in Hi by lia.
        destruct o; simpl in Hi; try by rewrite lookup_nil in Hi.
        destruct (i - length (ChatInterface.log c)) as [|j]; [done|by destruct j].
Qed.

Lemma run_keeps (env : option jsstring) (events : list ChatInterface.Event) :
  runKeeps (ChatInterface.run env events).
Proof.
  unfold ChatInterface.run.
  assert (H : forall c, runKeeps c ->
                runKeeps (foldl (ChatInterface.step env) c events)).
  { induction events as [|e events IH]; intros c Hc; [done|].
    simpl. by apply IH, runKeeps_step. }
  apply H. by split_and!.
Qed.

(** X17: In every run of the chat interface, whatever the order in which
    answers arrive, a conversation id that is stored or sent was carried
    by an answer received before: the interface never makes one up. *)
Theorem conversation_ids_come_from_answers
    (env : option jsstring) (events : list ChatInterface.Event) :
  let c := ChatInterface.run env events in
  (forall cid,
     ChatInterface.conversationId (ChatInterface.state c) = Some cid ->
     answerCarried cid (ChatInterface.log c)) /\
  (forall i r cid,
     ChatInterface.log c !! i = Some (ChatInterface.Sent r) ->
     ChatInterface.conversationOf r = Some cid ->
     answerCarried cid (take i (ChatInterface.log c))).
Proof.
  intros c. by destruct (run_keeps env events) as (_ & ? & ?).
Qed.

Lemma conversation_ids_come_from_answers_witness :
  answerCarried (js "c1") (ChatInterface.log (ChatInterface.run None staleAnswer)).
Proof.
  destruct (conversation_ids_come_from_answers None staleAnswer) as [H _].
  apply H. reflexivity.
Defined.

(** X18: In every run of the chat interface the loading indicator is off
    whenever no request is in flight: the [finally] of
    [handleSendMessage] clears it however the request ended. *)
Theorem no_spinner_without_request
    (env : option jsstring) (events : list ChatInterface.Event) :
  let c := ChatInterface.run env events in
  ChatInterface.inflight c = [] ->
  ChatInterface.isLoading (ChatInterface.state c) = false.
Proof.
  intros c. by destruct (run_keeps env events) as (? & _).
Qed.

Lemma no_spinner_without_request_witness :
  ChatInterface.isLoading
    (ChatInterface.state
       (ChatInterface.run None
          [ ChatInterface.SetToken (Some (js "t"));
            ChatInterface.SelectRepo (Some (js "octo/a")) 1000;
            ChatInterface.Type_ (js "What is this repo about?");
            ChatInterface.Submit (clockAt 2000);
            ChatInterface.Settle 0 (clockAt 3000) ChatInterface.FetchRejected ]))
  = false.
Proof.
  apply (no_spinner_without_request None). reflexivity.
Defined.

(** ** Authentication widget *)

Lemma fetchUserInfo_consistent (c : N) (t : jsstring) (o : UserAuth.Outcome)
    (w : UserAuth.Widget) :
  UserAuth.pageToken w = None ->
  consistent (UserAuth.fetchUserInfo (c :: t) o w).
Proof.
  intros Hpage. unfold consistent.
  destruct o as [| | |data]; simpl; rewrite ?Hpage;
    split_and!; try done; try (by split); by eexists _, _.
Qed.

Lemma click_consistent (w : UserAuth.Widget) (a : UserAuth.Click) :
  consistent w -> consistent (UserAuth.click w a).
Proof.
  intros Hw. pose proof Hw as (Hload & Hopen & Hinfo & Hauth & Hpage).
  destruct a as [| |s|o|]; simpl.
  - destruct (UserAuth.signedIn (UserAuth.state w)) eqn:Es; [done|].
    unfold UserAuth.signedIn in Es.
    assert (Ha : UserAuth.isAuthenticated (UserAuth.state w) = false).
    { destruct (UserAuth.isAuthenticated (UserAuth.state w)); [|done].
      simpl in Es. apply bool_decide_eq_false in Es.
      destruct Es. by apply Hinfo. }
    unfold consistent. simpl. by split_and!.
  - destruct (UserAuth.isSignInOpen (UserAuth.state w)); [|done].
    unfold consistent. simpl. by split_and!.
  - destruct (UserAuth.isSignInOpen (UserAuth.state w)) eqn:Eo; [|done].
    unfold consistent. simpl. rewrite Eo. by split_and!.
  - destruct (UserAuth.isSignInOpen (UserAuth.state w)) eqn:Eo; simpl;
      [|done].
    rewrite Hload. simpl. unfold UserAuth.handleSignIn.
    destruct (trim (UserAuth.token (UserAuth.state w))) eqn:Et; [done|].
    destruct (UserAuth.token (UserAuth.state w)) as [|c t]; [done|].
    by apply fetchUserInfo_consistent, Hpage, Hopen.
  - destruct (UserAuth.signedIn (UserAuth.state w)); [|done].
    unfold consistent. simpl. by split_and!.
Qed.

Lemma visit_consistent (stored : option jsstring) (o : UserAuth.Outcome)
    (clicks : list UserAuth.Click) :
  consistent (UserAuth.visit stored o clicks).
Proof.
  unfold UserAuth.visit.
  assert (H : forall w, consistent w -> consistent (foldl UserAuth.click w clicks)).
  { induction clicks as [|a clicks IH]; intros w Hw; [done|].
    simpl. by apply IH, click_consistent. }
  apply H. unfold UserAuth.onMount. simpl.
  destruct stored as [[|c t]|].
  - unfold consistent. simpl. by split_and!.
  - by apply fetchUserInfo_consistent.
  - unfold consistent. simpl. by split_and!.
Qed.

(** X20: Through a whole visit, whatever [localStorage] held at the start,
    however the checks end and whatever the user clicks, the page holds a
    token exactly when the widget shows the user as signed in, and it is
    then the non-empty token kept in [localStorage]. *)
Theorem page_token_follows_sign_in
    (stored : option jsstring) (o : UserAuth.Outcome)
    (clicks : list UserAuth.Click) :
  let w := UserAuth.visit stored o clicks in
  (UserAuth.signedIn (UserAuth.state w) = true ->
   exists c t, UserAuth.pageToken w = Some (c :: t)
               /\ UserAuth.localStorage w = Some (c :: t)) /\
  (UserAuth.signedIn (UserAuth.state w) = false -> UserAuth.pageToken w = None) /\
  UserAuth.isLoading (UserAuth.state w) = false.
Proof.
  intros w.
  destruct (visit_consistent stored o clicks)
    as (Hload & Hopen & Hinfo & Hauth & Hpage). fold w in Hload, Hinfo, Hauth, Hpage.
  unfold UserAuth.signedIn. split_and!; [| |done].
  - intros H. apply andb_true_iff in H as [Ha _].
    destruct (Hauth Ha) as (c & t & ? & ?). by exists c, t.
  - intros H. apply andb_false_iff in H as [Ha|Hi]; [by apply Hpage|].
    apply bool_decide_eq_false in Hi.
    destruct (UserAuth.isAuthenticated (UserAuth.state w)) eqn:Ea;
      [|by apply Hpage].
    destruct Hi. by apply Hinfo.
Qed.

Lemma page_token_follows_sign_in_witness :
  UserAuth.pageToken
    (UserAuth.visit (Some (js "ghp_old")) UserAuth.NotOk
       [ UserAuth.SignInWithGitHub; UserAuth.TypeToken (js "ghp_new");
         UserAuth.SignIn
           (UserAuth.Ok {| UserAuth.user_name := None;
                           UserAuth.login := js "octo";
                           UserAuth.user_avatar_url := js "a.png" |});
         UserAuth.SignOut ])
  = None.
Proof.
  apply (page_token_follows_sign_in (Some (js "ghp_old")) UserAuth.NotOk).
  reflexivity.
Defined.

(** X21: [handleSignIn] does nothing for a blank token.  Otherwise it checks
    the token as typed, untrimmed, with one GET to GitHub.  When GitHub
    accepts it, the token is stored and given to the page and the user
    is shown under the display name, or under the login when there is
    none; when the check fails, the stored token is removed and the
    page is not told, so it keeps the token it had.  Either way the
    dialog is closed. *)
Theorem handleSignIn_checks_token (o : UserAuth.Outcome) (w : UserAuth.Widget) :
  let w' := UserAuth.handleSignIn o w in
  let typed := UserAuth.token (UserAuth.state w) in
  (trim typed = [] -> w' = w) /\
  (trim typed <> [] ->
   (exists r, UserAuth.requests w' = UserAuth.requests w ++ [r] /\
      url r = js "https://api.github.com/user" /\
      header (js "Authorization") r = Some (js "token " ++ typed)) /\
   UserAuth.isSignInOpen (UserAuth.state w') = false /\
   UserAuth.token (UserAuth.state w') = typed /\
   (forall data, o = UserAuth.Ok data ->
      UserAuth.localStorage w' = Some typed /\
      UserAuth.pageToken w' = Some typed /\
      UserAuth.signedIn (UserAuth.state w') = true /\
      (UserAuth.name <$> UserAuth.userInfo (UserAuth.state w')
       = Some (if truthy (UserAuth.user_name data)
               then default [] (UserAuth.user_name data)
               else UserAuth.login data))) /\
   ((forall data, o <> UserAuth.Ok data) ->
      UserAuth.localStorage w' = None /\
      UserAuth.pageToken w' = UserAuth.pageToken w /\
      UserAuth.signedIn (UserAuth.state w') = false)).
Proof.
  intros w' typed. unfold w', UserAuth.handleSignIn. fold typed.
  split; [by intros ->|].
  intros Hq. destruct (trim typed); [done|].
  destruct o as [| | |data]; simpl; split_and!; try done;
    try (eexists; split_and!; reflexivity);
    try (intros H; by destruct (H data)).
  intros data' [= <-]. split_and!; try done.
  unfold UserAuth.displayName.
  by destruct (UserAuth.user_name data) as [[|? ?]|].
Qed.

Lemma handleSignIn_checks_token_witness :
  let w := {| UserAuth.state :=
                {| UserAuth.isSignInOpen := true;
                   UserAuth.token := js " ghp_x ";
                   UserAuth.isAuthenticated := false;
                   UserAuth.userInfo := None;
                   UserAuth.isLoading := false |};
              UserAuth.localStorage := Some (js "ghp_old");
              UserAuth.pageToken := None;
              UserAuth.requests := []; UserAuth.notices := [] |} in
  UserAuth.localStorage (UserAuth.handleSignIn UserAuth.FetchRejected w) = None.
Proof.
  intros w.
  destruct (handleSignIn_checks_token UserAuth.FetchRejected w) as [_ H].
  destruct H as (_ & _ & _ & _ & H); [discriminate|].
  destruct H as (H & _); [discriminate|]. exact H.
Defined.
